(** * The import controller's reconcile helpers (pkg/controller/util.go)

    A shallow embedding of [pvcFromKey], [getEndpoint], [getSecretName],
    [setPVCStatus], [createImporterPod], [makeImporterPodSpec] and [makeEnv].

    Go pointers are locations of an explicit heap; Go maps are reference
    values, so a claim's annotation map is a heap object of its own and two
    claims may share one.  The cluster (API server behind the clientset, and
    the informer's cache) is an abstract state with one operation per client
    call; every remote call is recorded in a trace together with the error
    it returned. *)

From stdpp Require Import gmap strings list fin_maps.

Open Scope string_scope.

(** ** Errors and formatted messages *)

(** metav1.StatusReason, as far as the API machinery's predicates on
    errors tell the reasons apart. *)
Inductive StatusReason :=
| StatusReasonUnknown
| StatusReasonNotFound
| StatusReasonAlreadyExists
| StatusReasonConflict
| StatusReasonForbidden
| StatusReasonInvalid
| StatusReasonServerTimeout.

Global Instance StatusReason_eq_dec : EqDecision StatusReason.
Proof. solve_decision. Defined.

(** Go's [error] values that reach this file: an API status error, a plain
    error (errors.New), the sentinel wait.ErrWaitTimeout, and the result of
    fmt.Errorf, kept as the format string with its arguments. *)
Inductive error :=
| StatusError (reason : StatusReason) (message : string)
| errorString (s : string)
| ErrWaitTimeout
| Errorf (format : string) (args : list fmtArg)
with fmtArg :=
| ArgS (s : string)
| ArgE (e : error).

(** A line feed and a double quote, for the format strings. *)
Definition LF : string := String (Ascii.ascii_of_nat 10) "".
Definition DQ : string := String (Ascii.ascii_of_nat 34) "".

(** apierrs.ReasonForError: the reason of a status error, unknown for any
    other error and for nil. *)
Definition ReasonForError (err : option error) : StatusReason :=
  match err with
  | Some (StatusError reason _) => reason
  | _ => StatusReasonUnknown
  end.

Definition IsNotFound (err : option error) : bool :=
  bool_decide (ReasonForError err = StatusReasonNotFound).

Definition IsConflict (err : option error) : bool :=
  bool_decide (ReasonForError err = StatusReasonConflict).

(** ** Objects *)

Definition loc := positive.

(** A pointer; [None] is nil. *)
Definition ptr := option loc.

(** metav1.ObjectMeta, with the fields this file reads or writes.  [A] is
    how the annotation map is held: a reference into the heap of maps for an
    object in memory, the map itself for an object on the wire.  In both,
    [None] is the nil map. *)
Module ObjectMeta.
Record t (A : Type) := Build {
  Name : string;
  Namespace : string;
  ResourceVersion : string;
  Annotations : option A
}.
Arguments Build {A} _ _ _ _.
Arguments Name {A} _.
Arguments Namespace {A} _.
Arguments ResourceVersion {A} _.
Arguments Annotations {A} _.
Definition withAnnotations {A B} (o : t A) (a : option B) : t B :=
  {| Name := Name o; Namespace := Namespace o;
     ResourceVersion := ResourceVersion o; Annotations := a |}.
End ObjectMeta.

(** A v1.PersistentVolumeClaim is represented by its embedded ObjectMeta
    (pvc.Name, pvc.Namespace and pvc.Annotations are promoted fields of it;
    no other field of a claim is read or written here).  [PVC] is the object
    in memory, [Claim] its content as the clientset sends and receives it. *)
Abbreviation PVC := (ObjectMeta.t loc).
Abbreviation Claim := (ObjectMeta.t (gmap string string)).

Module Secret.
Record t := Build {
  Name : string;
  Namespace : string;
  Data : gmap string string
}.
End Secret.

Module SecretKeySelector.
Record t := Build {
  (* LocalObjectReference{Name} *)
  Name : string;
  Key : string
}.
End SecretKeySelector.

Module EnvVarSource.
Record t := Build {
  SecretKeyRef : option SecretKeySelector.t
}.
End EnvVarSource.

Module EnvVar.
Record t := Build {
  Name : string;
  Value : string;
  ValueFrom : option EnvVarSource.t
}.
End EnvVar.

Module VolumeMount.
Record t := Build {
  Name : string;
  MountPath : string
}.
End VolumeMount.

Inductive PullPolicy := PullAlways | PullNever | PullIfNotPresent.
Inductive RestartPolicy :=
| RestartPolicyAlways | RestartPolicyOnFailure | RestartPolicyNever.

Module Container.
Record t := Build {
  Name : string;
  Image : string;
  ImagePullPolicy : PullPolicy;
  VolumeMounts : list VolumeMount.t;
  Env : list EnvVar.t
}.
Definition withEnv (c : t) (env : list EnvVar.t) : t :=
  {| Name := Name c; Image := Image c; ImagePullPolicy := ImagePullPolicy c;
     VolumeMounts := VolumeMounts c; Env := env |}.
End Container.

Module PersistentVolumeClaimVolumeSource.
Record t := Build {
  ClaimName : string;
  ReadOnly : bool
}.
End PersistentVolumeClaimVolumeSource.

Module Volume.
Record t := Build {
  Name : string;
  (* VolumeSource{PersistentVolumeClaim} *)
  PersistentVolumeClaim : option PersistentVolumeClaimVolumeSource.t
}.
End Volume.

Module PodSpec.
Record t := Build {
  Containers : list Container.t;
  RestartPolicy : RestartPolicy;
  Volumes : list Volume.t
}.
Definition withContainers (s : t) (cs : list Container.t) : t :=
  {| Containers := cs; RestartPolicy := RestartPolicy s; Volumes := Volumes s |}.
End PodSpec.

Module Pod.
Record t := Build {
  (* TypeMeta *)
  Kind : string;
  APIVersion : string;
  ObjectMeta : ObjectMeta.t (gmap string string);
  Spec : PodSpec.t
}.
End Pod.

(** The controller: its image tag.  Its clientset and its informer are the
    cluster below. *)
Record Controller := { importerImageTag : string }.

(** What the informer's indexer hands out (an interface{} value). *)
Inductive object :=
| ObjNil
| ObjPVC (p : ptr)
| ObjOther.

(** A work queue key (an interface{} value). *)
Inductive key :=
| KeyString (s : string)
| KeyOther.

(** The constants of the package and of pkg/common that this file names;
    they are declared outside it. *)
Class Consts := {
  annEndpoint : string;
  annSecret : string;
  annStatus : string;
  annCreatedBy : string;
  IMPORTER_PODNAME : string;
  IMPORTER_DATA_DIR : string;
  IMPORTER_ENDPOINT : string;
  IMPORTER_ACCESS_KEY_ID : string;
  IMPORTER_SECRET_KEY : string;
  KeyAccess : string;
  KeySecret : string
}.

(** ** The cluster *)

(** A remote call through the clientset. *)
Inductive Call :=
| CallSecretsGet (ns name : string)
| CallClaimsUpdate (ns : string) (pvc : Claim)
| CallClaimsGet (ns name : string)
| CallPodsCreate (ns : string) (pod : Pod.t).

(** The collaborators, over a cluster state [W]: the informer's indexer (a
    read of the local cache) and the clientset's calls, each returning Go's
    pair of a result and an error and the cluster state after the call.  A
    result is the decoded content of the response, or nil. *)
Class Cluster (W : Type) := {
  GetByKey : string → W → object * bool * option error;
  SecretsGet : string → string → W → (option Secret.t * option error) * W;
  ClaimsUpdate : string → Claim → W → (option Claim * option error) * W;
  ClaimsGet : string → string → W → (option Claim * option error) * W;
  PodsCreate : string → Pod.t → W → (option Pod.t * option error) * W
}.

(** ** Program state and the monad of the embedding *)

Record State (W : Type) := mkState {
  objs : gmap loc PVC;                       (* the claims in memory *)
  maps : gmap loc (gmap string string);      (* the annotation maps in memory *)
  world : W;                                 (* the cluster *)
  calls : list (Call * option error);        (* remote calls made, oldest first *)
  glog : list (string * list fmtArg)         (* lines logged, oldest first *)
}.
Arguments mkState {W} _ _ _ _ _.
Arguments objs {W} _.
Arguments maps {W} _.
Arguments world {W} _.
Arguments calls {W} _.
Arguments glog {W} _.

(** A computation returns a value or panics (a nil pointer dereference). *)
Inductive Outcome (A : Type) :=
| Val (a : A)
| Panic.
Arguments Val {A} _.
Arguments Panic {A}.

Definition M (W A : Type) : Type := State W → Outcome A * State W.

Definition ret {W A} (a : A) : M W A := λ s, (Val a, s).

Definition bind {W A B} (m : M W A) (k : A → M W B) : M W B :=
  λ s, match m s with
       | (Val a, s') => k a s'
       | (Panic, s') => (Panic, s')
       end.

Definition panic {W A} : M W A := λ s, (Panic, s).

Notation "x <- y ; z" := (bind y (λ x, z))
  (at level 20, y at level 100, z at level 200, only parsing).
Notation "' x <- y ; z" := (bind y (λ x, z))
  (at level 20, x pattern, y at level 100, z at level 200, only parsing).
Notation "y ;;; z" := (bind y (λ _, z))
  (at level 100, z at level 200, only parsing, right associativity).

(** ** The Go runtime: pointers, maps, logging *)

Section Runtime.
Context {W : Type}.

(** [*p]: a nil or dangling pointer panics. *)
Definition load (p : ptr) : M W PVC := λ s,
  match p with
  | Some l =>
      match objs s !! l with
      | Some o => (Val o, s)
      | None => (Panic, s)
      end
  | None => (Panic, s)
  end.

(** [*p = o]. *)
Definition store (p : ptr) (o : PVC) : M W unit := λ s,
  match p with
  | Some l =>
      match objs s !! l with
      | Some _ =>
          (Val (), mkState (<[l:=o]> (objs s)) (maps s) (world s) (calls s) (glog s))
      | None => (Panic, s)
      end
  | None => (Panic, s)
  end.

(** [new(T)] followed by [*p = o]: a fresh location. *)
Definition new (o : PVC) : M W ptr := λ s,
  let l := fresh (dom (objs s)) in
  (Val (Some l), mkState (<[l:=o]> (objs s)) (maps s) (world s) (calls s) (glog s)).

(** [make(map[string]string)] filled with [g]: a fresh map. *)
Definition make (g : gmap string string) : M W loc := λ s,
  let l := fresh (dom (maps s)) in
  (Val l, mkState (objs s) (<[l:=g]> (maps s)) (world s) (calls s) (glog s)).

(** The content of a map. *)
Definition readMap (m : loc) : M W (gmap string string) := λ s,
  match maps s !! m with
  | Some g => (Val g, s)
  | None => (Panic, s)
  end.

(** The two results of a comma-ok map read: the zero value when absent. *)
Definition commaOk (x : option string) : string * bool :=
  match x with
  | Some v => (v, true)
  | None => ("", false)
  end.

(** [v, ok := m[k]]: reading a nil map finds nothing. *)
Definition mapIndex (m : option loc) (k : string) : M W (string * bool) :=
  match m with
  | None => ret (commaOk None)
  | Some l => g <- readMap l; ret (commaOk (g !! k))
  end.

(** [m[k] = v], in place. *)
Definition mapAssign (m : loc) (k v : string) : M W unit := λ s,
  match maps s !! m with
  | Some g =>
      (Val (), mkState (objs s) (<[m:=<[k:=v]> g]> (maps s)) (world s) (calls s) (glog s))
  | None => (Panic, s)
  end.

(** fmt.Sprintf, kept as the format string with its arguments. *)
Definition Sprintf (format : string) (args : list fmtArg) : string * list fmtArg :=
  (format, args).

Definition glog_Info (msg : string * list fmtArg) : M W unit := λ s,
  (Val (), mkState (objs s) (maps s) (world s) (calls s) (glog s ++ [msg])).

Definition glog_Infof (format : string) (args : list fmtArg) : M W unit :=
  glog_Info (Sprintf format args).

(** ** k8s.io/apimachinery *)

(** metav1.SetMetaDataAnnotation(obj, ann, value): creates the map when it
    is nil, then assigns.  [obj] is the pointer to the object whose
    ObjectMeta is addressed. *)
Definition SetMetaDataAnnotation (obj : ptr) (ann value : string) : M W unit :=
  o <- load obj;
  match ObjectMeta.Annotations o with
  | None =>
      m <- make ∅;
      store obj (ObjectMeta.withAnnotations o (Some m));;;
      mapAssign m ann value
  | Some m => mapAssign m ann value
  end.

(** The generated DeepCopy of a claim: nil for nil, else a new object whose
    annotation map is a new map with the same entries (nil stays nil). *)
Definition DeepCopy (p : ptr) : M W ptr :=
  match p with
  | None => ret None
  | Some _ =>
      o <- load p;
      a <- match ObjectMeta.Annotations o with
          | None => ret None
          | Some m => g <- readMap m; m' <- make g; ret (Some m')
          end;
      new (ObjectMeta.withAnnotations o a)
  end.

(** time.Duration, in nanoseconds. *)
Definition Duration := Z.
Definition Second : Duration := 1000000000%Z.

(** Modelled from the spec: the poller of k8s.io/apimachinery's wait
    package, which is not part of this repository.  It signals once per
    [interval] until its timer fires after [timeout]; wall-clock time is
    abstracted to the number of signals it delivers, at most
    [timeout / interval] and no more than [ticks], the number the consumer
    is ready to take in that time. *)
Definition poller (interval timeout : Duration) (ticks : nat) : nat :=
  ticks `min` Z.to_nat (timeout / interval).

(** Modelled from the spec: wait.WaitFor of the same package over [n]
    signals.  The condition runs at every signal and one last time when the
    poller's channel is closed; an error or a true answer ends the wait, and
    a wait that runs out fails with ErrWaitTimeout.  [V] is the state of the
    variables the condition's closure captures. *)
Fixpoint WaitFor {V} (n : nat) (fn : V → M W (V * (bool * option error)))
    (v : V) : M W (V * option error) :=
  '(v, (ok, err)) <- fn v;
  match err with
  | Some e => ret (v, Some e)
  | None =>
      if ok then ret (v, None)
      else match n with
           | O => ret (v, Some ErrWaitTimeout)
           | S n => WaitFor n fn v
           end
  end.

(** Modelled from the spec: wait.PollImmediate of the same package.  The
    condition runs at once, and the wait starts only when it answers
    (false, nil). *)
Definition PollImmediate {V} (interval timeout : Duration) (ticks : nat)
    (condition : V → M W (V * (bool * option error))) (v : V)
    : M W (V * option error) :=
  '(v, (done, err)) <- condition v;
  match err with
  | Some e => ret (v, Some e)
  | None =>
      if done then ret (v, None)
      else WaitFor (poller interval timeout ticks) condition v
  end.

End Runtime.

(** ** The clientset and the informer *)

Section Program.
Context {K : Consts} {W : Type} {C : Cluster W}.

(** The content of the object behind a pointer, as a request carries it. *)
Definition encode (p : ptr) : M W Claim :=
  o <- load p;
  a <- match ObjectMeta.Annotations o with
      | None => ret None
      | Some m => g <- readMap m; ret (Some g)
      end;
  ret (ObjectMeta.withAnnotations o a).

(** A response decoded into a newly allocated object with a map of its
    own; nil for no result. *)
Definition decode (r : option Claim) : M W ptr :=
  match r with
  | None => ret None
  | Some c =>
      a <- match ObjectMeta.Annotations c with
          | None => ret None
          | Some g => m <- make g; ret (Some m)
          end;
      new (ObjectMeta.withAnnotations c a)
  end.

(** A remote call: the cluster answers and moves on, the trace grows. *)
Definition remote {R} (call : Call) (op : W → (R * option error) * W)
    : M W (R * option error) := λ s,
  let '((r, err), w) := op (world s) in
  (Val (r, err), mkState (objs s) (maps s) w (calls s ++ [(call, err)]) (glog s)).

(** c.pvcInformer.GetIndexer().GetByKey(key) *)
Definition Indexer_GetByKey (k : string) : M W (object * bool * option error) := λ s,
  (Val (GetByKey k (world s)), s).

(** c.clientset.CoreV1().Secrets(ns).Get(name, metav1.GetOptions{}) *)
Definition Secrets_Get (ns name : string) : M W (option Secret.t * option error) :=
  remote (CallSecretsGet ns name) (SecretsGet ns name).

(** c.clientset.CoreV1().PersistentVolumeClaims(ns).Update(pvc) *)
Definition PersistentVolumeClaims_Update (ns : string) (pvc : ptr)
    : M W (ptr * option error) :=
  c <- encode pvc;
  '(r, err) <- remote (CallClaimsUpdate ns c) (ClaimsUpdate ns c);
  p <- decode r;
  ret (p, err).

(** c.clientset.CoreV1().PersistentVolumeClaims(ns).Get(name, metav1.GetOptions{}) *)
Definition PersistentVolumeClaims_Get (ns name : string) : M W (ptr * option error) :=
  '(r, err) <- remote (CallClaimsGet ns name) (ClaimsGet ns name);
  p <- decode r;
  ret (p, err).

(** c.clientset.CoreV1().Pods(ns).Create(pod) *)
Definition Pods_Create (ns : string) (pod : Pod.t) : M W (option Pod.t * option error) :=
  remote (CallPodsCreate ns pod) (PodsCreate ns pod).

(** ** pkg/controller/util.go *)

(** return a pvc pointer based on the passed-in work queue key. *)
Definition pvcFromKey (c : Controller) (k : key) : M W (ptr * option error) :=
  match k with
  | KeyOther =>
      ret (None, Some (Errorf ("pvcFromKey: key object not of type string" +:+ LF) []))
  | KeyString keyString =>
      '(obj, ok, err) <- Indexer_GetByKey keyString;
      if negb ok then ret (None, None)
      else
        match err with
        | Some _ =>
            ret (None, Some (Errorf ("pvcFromKey: Error getting key from cache: %q" +:+ LF)
                                    [ArgS keyString]))
        | None =>
            match obj with
            | ObjPVC pvc => ret (pvc, None)
            | _ =>
                ret (None, Some (Errorf ("pvcFromKey: Object not of type *v1.PersistentVolumeClaim" +:+ LF) []))
            end
        end
  end.

(** returns the endpoint string which contains the full path URI of the
    target object to be copied. *)
Definition getEndpoint (pvc : ptr) : M W (string * option error) :=
  o <- load pvc;
  '(ep, found) <- mapIndex (ObjectMeta.Annotations o) annEndpoint;
  if negb found || bool_decide (ep = "") then
    ret (ep, Some (Errorf ("getEndpoint: annotation %q in pvc %s/%s is missing or is blank" +:+ LF)
                          [ArgS annEndpoint; ArgS (ObjectMeta.Namespace o);
                           ArgS (ObjectMeta.Name o)]))
  else ret (ep, None).

(** returns the name of the secret containing endpoint credentials consumed
    by the importer pod.  A value of the empty string implies there are no
    credentials for the endpoint being used. *)
Definition getSecretName (c : Controller) (pvc : ptr) : M W (string * option error) :=
  o <- load pvc;
  let ns := ObjectMeta.Namespace o in
  '(name, found) <- mapIndex (ObjectMeta.Annotations o) annSecret;
  if negb found || bool_decide (name = "") then
    let msg :=
      if negb found then
        Sprintf ("getEndpointSecret: annotation %q is missing in pvc %s/%s" +:+ LF)
                [ArgS annSecret; ArgS ns; ArgS (ObjectMeta.Name o)]
      else
        Sprintf ("getEndpointSecret: secret name is missing from annotation %q in pvc "
                   +:+ DQ +:+ "%s/%s" +:+ LF)
                [ArgS annSecret; ArgS ns; ArgS (ObjectMeta.Name o)] in
    glog_Info msg;;;
    ret ("", None)
  else
    glog_Infof ("getEndpointSecret: retrieving Secret " +:+ DQ +:+ "%s/%s" +:+ DQ +:+ LF)
               [ArgS ns; ArgS name];;;
    '(_, err) <- Secrets_Get ns name;
    if IsNotFound err then
      glog_Infof ("getEndpointSecret: secret %q defined in pvc " +:+ DQ +:+ "%s/%s" +:+ DQ
                    +:+ " is missing. Importer pod will run once this secret is created" +:+ LF)
                 [ArgS name; ArgS ns; ArgS (ObjectMeta.Name o)];;;
      ret (name, None)
    else
      match err with
      | Some e =>
          ret ("", Some (Errorf ("getEndpointSecret: error getting secret %q defined in pvc "
                                   +:+ DQ +:+ "%s/%s" +:+ DQ +:+ ": %v" +:+ LF)
                                [ArgS name; ArgS ns; ArgS (ObjectMeta.Name o); ArgE e]))
      | None => ret (name, None)
      end.

(** The closure handed to PollImmediate in [setPVCStatus].  It captures the
    variables pvcClone and newPVC, here the pair it takes and gives back;
    [o] is the caller's claim, read for pvc.Namespace and pvc.Name. *)
Definition setPVCStatus_attempt (o : PVC) (status : string) (v : ptr * ptr)
    : M W ((ptr * ptr) * (bool * option error)) :=
  let '(pvcClone, _) := v in
  SetMetaDataAnnotation pvcClone annStatus status;;;
  '(newPVC, err) <- PersistentVolumeClaims_Update (ObjectMeta.Namespace o) pvcClone;
  match err with
  | None => ret ((pvcClone, newPVC), (true, None))
  | Some e =>
      if IsConflict err then
        '(pvcClone, err) <- PersistentVolumeClaims_Get (ObjectMeta.Namespace o) (ObjectMeta.Name o);
        match err with
        | None => ret ((pvcClone, newPVC), (false, None))
        | Some e =>
            ret ((pvcClone, newPVC),
                 (true, Some (Errorf ("setPVCStatus: error %s pvc %s/%s: %v" +:+ LF)
                                     [ArgS "getting"; ArgS (ObjectMeta.Namespace o);
                                      ArgS (ObjectMeta.Name o); ArgE e])))
        end
      else
        ret ((pvcClone, newPVC),
             (true, Some (Errorf ("setPVCStatus: error %s pvc %s/%s: %v" +:+ LF)
                                 [ArgS "updating"; ArgS (ObjectMeta.Namespace o);
                                  ArgS (ObjectMeta.Name o); ArgE e])))
  end.

(** set the pvc's status annotation to the passed-in value.  [ticks] is the
    number of poller signals the loop is ready to take during this call. *)
Definition setPVCStatus (c : Controller) (pvc : ptr) (status : string) (ticks : nat)
    : M W (ptr * option error) :=
  o <- load pvc;
  '(val, ok) <- mapIndex (ObjectMeta.Annotations o) annStatus;
  if ok && bool_decide (val = status) then ret (pvc, None)
  else
    pvcClone <- DeepCopy pvc;
    '((_, newPVC), err) <- PollImmediate (Second * 1)%Z (Second * 4)%Z ticks
                             (setPVCStatus_attempt o status) (pvcClone, (None : ptr));
    ret (newPVC, err).

(** return the Env portion for the importer container. *)
Definition makeEnv (endpoint secret : string) : list EnvVar.t :=
  let env := [ EnvVar.Build IMPORTER_ENDPOINT endpoint None ] in
  if negb (bool_decide (secret = "")) then
    env ++ [ EnvVar.Build IMPORTER_ACCESS_KEY_ID ""
               (Some (EnvVarSource.Build (Some (SecretKeySelector.Build secret KeyAccess))));
             EnvVar.Build IMPORTER_SECRET_KEY ""
               (Some (EnvVarSource.Build (Some (SecretKeySelector.Build secret KeySecret)))) ]
  else env.

(** pod.Spec.Containers[0].Env = env; indexing past the end panics. *)
Definition setContainer0Env (pod : Pod.t) (env : list EnvVar.t) : M W Pod.t :=
  match PodSpec.Containers (Pod.Spec pod) with
  | c0 :: cs =>
      ret (Pod.Build (Pod.Kind pod) (Pod.APIVersion pod) (Pod.ObjectMeta pod)
             (PodSpec.withContainers (Pod.Spec pod) (Container.withEnv c0 env :: cs)))
  | [] => panic
  end.

(** return the importer pod spec based on the passed-in endpoint, secret
    and pvc.  The pod is newly built and is represented by its content. *)
Definition makeImporterPodSpec (c : Controller) (ep secret : string) (pvc : ptr)
    : M W Pod.t :=
  o <- load pvc;
  let podName := IMPORTER_PODNAME +:+ "-" +:+ ObjectMeta.Name o in
  let pod :=
    {| Pod.Kind := "Pod";
       Pod.APIVersion := "v1";
       Pod.ObjectMeta :=
         {| ObjectMeta.Name := podName;
            ObjectMeta.Namespace := "";
            ObjectMeta.ResourceVersion := "";
            ObjectMeta.Annotations := Some {[ annCreatedBy := "yes" ]} |};
       Pod.Spec :=
         {| PodSpec.Containers :=
              [ {| Container.Name := IMPORTER_PODNAME;
                   Container.Image := "docker.io/jcoperh/importer:" +:+ importerImageTag c;
                   Container.ImagePullPolicy := PullAlways;
                   Container.VolumeMounts :=
                     [ {| VolumeMount.Name := "data-path";
                          VolumeMount.MountPath := IMPORTER_DATA_DIR |} ];
                   Container.Env := [] |} ];
            PodSpec.RestartPolicy := RestartPolicyNever;
            PodSpec.Volumes :=
              [ {| Volume.Name := "data-path";
                   Volume.PersistentVolumeClaim :=
                     Some {| PersistentVolumeClaimVolumeSource.ClaimName := ObjectMeta.Name o;
                             PersistentVolumeClaimVolumeSource.ReadOnly := false |} |} ] |} |} in
  setContainer0Env pod (makeEnv ep secret).

(** return a pointer to a pod which is created based on the passed-in
    endpoint, secret name, and pvc. *)
Definition createImporterPod (c : Controller) (ep secretName : string) (pvc : ptr)
    : M W (option Pod.t * option error) :=
  o <- load pvc;
  let ns := ObjectMeta.Namespace o in
  pod <- makeImporterPodSpec c ep secretName pvc;
  '(pod, err) <- Pods_Create ns pod;
  match err with
  | Some e =>
      ret (None, Some (Errorf ("createImporterPod: Create failed: %v" +:+ LF) [ArgE e]))
  | None =>
      match pod with
      | Some p =>
          glog_Infof ("importer pod " +:+ DQ +:+ "%s/%s" +:+ DQ +:+ " (image tag: %q) created" +:+ LF)
                     [ArgS (ObjectMeta.Namespace (Pod.ObjectMeta p));
                      ArgS (ObjectMeta.Name (Pod.ObjectMeta p));
                      ArgS (importerImageTag c)];;;
          ret (pod, None)
      | None => panic
      end
  end.

End Program.

(** ** Observations on states, claims and traces *)

Section Observations.
Context {W : Type}.

(** The content of the claim behind a pointer: what [encode] reads. *)
Definition content (s : State W) (p : ptr) : option Claim :=
  match p with
  | None => None
  | Some l =>
      match objs s !! l with
      | None => None
      | Some o =>
          match ObjectMeta.Annotations o with
          | None => Some (ObjectMeta.withAnnotations o None)
          | Some m =>
              match maps s !! m with
              | None => None
              | Some g => Some (ObjectMeta.withAnnotations o (Some g))
              end
          end
      end
  end.

(** The value of an annotation of a claim, if it has one. *)
Definition annotation (v : Claim) (k : string) : option string :=
  match ObjectMeta.Annotations v with
  | None => None
  | Some g => g !! k
  end.

(** A claim with one annotation set. *)
Definition setAnnotation (v : Claim) (k x : string) : Claim :=
  ObjectMeta.withAnnotations v
    (Some (<[k:=x]> (default ∅ (ObjectMeta.Annotations v)))).

Definition isUpdate (ev : Call * option error) : bool :=
  match ev with
  | (CallClaimsUpdate _ _, _) => true
  | _ => false
  end.

(** The number of conditional writes a trace holds. *)
Definition updates (tr : list (Call * option error)) : nat :=
  length (filter (λ ev, isUpdate ev = true) tr).

(** What a step that only touches memory leaves alone. *)
Definition sameCluster (s s' : State W) : Prop :=
  world s' = world s ∧ calls s' = calls s ∧ glog s' = glog s.

(** The object at [l] and the map [a] it refers to are in memory. *)
Definition valid (l : loc) (a : option loc) (s : State W) : Prop :=
  l ∈ dom (objs s) ∧ ∀ m, a = Some m → m ∈ dom (maps s).

(** From [s] to [s'] the object at [l] and the map [a] are as they were,
    and nothing in memory was freed. *)
Definition untouched (l : loc) (a : option loc) (s s' : State W) : Prop :=
  objs s' !! l = objs s !! l ∧
  (∀ m, a = Some m → maps s' !! m = maps s !! m) ∧
  dom (objs s) ⊆ dom (objs s') ∧
  dom (maps s) ⊆ dom (maps s').

(** The pointer [q] is nil, or points to another object than [l], and one
    whose annotation map is not [a]. *)
Definition apart (l : loc) (a : option loc) (s : State W) (q : ptr) : Prop :=
  ∀ lq, q = Some lq →
    lq ≠ l ∧
    ∀ oq m, objs s !! lq = Some oq → ObjectMeta.Annotations oq = Some m → a ≠ Some m.

End Observations.

(** Every one of the next [n] conditional writes of [status], starting with
    the one for the claim [sent], is refused with a conflict, and every
    re-fetch after it succeeds. *)
Fixpoint persistentConflict `{Consts} `{Cluster W} (n : nat) (ns name status : string)
    (sent : Claim) (w : W) : bool :=
  match n with
  | O => true
  | S n =>
      match ClaimsUpdate ns (setAnnotation sent annStatus status) w with
      | ((_, err), w1) =>
          IsConflict err &&
          match ClaimsGet ns name w1 with
          | ((Some latest, None), w2) => persistentConflict n ns name status latest w2
          | _ => false
          end
      end
  end.

(** ** A cluster to run the code against *)

(** An API server holding claims and secrets under (namespace, name), with
    optimistic concurrency on the resource version, a rival writer that
    rewrites a claim right after each of our reads while [rivals] lasts, and
    an outage switch; and an informer index. *)
Module Fake.
Record t := Build {
  index : gmap string object;
  indexError : option error;
  secrets : gmap (string * string) Secret.t;
  claims : gmap (string * string) Claim;
  rivals : nat;
  outage : option error
}.

Definition bump (c : Claim) : Claim :=
  {| ObjectMeta.Name := ObjectMeta.Name c;
     ObjectMeta.Namespace := ObjectMeta.Namespace c;
     ObjectMeta.ResourceVersion := ObjectMeta.ResourceVersion c +:+ "+";
     ObjectMeta.Annotations := ObjectMeta.Annotations c |}.

Definition withClaims (w : t) (cs : gmap (string * string) Claim) (r : nat) : t :=
  {| index := index w; indexError := indexError w; secrets := secrets w;
     claims := cs; rivals := r; outage := outage w |}.

Definition notFound : error := StatusError StatusReasonNotFound "not found".
Definition conflict : error :=
  StatusError StatusReasonConflict "the object has been modified".

Definition getByKey (k : string) (w : t) : object * bool * option error :=
  match indexError w with
  | Some e => (ObjNil, false, Some e)
  | None =>
      match index w !! k with
      | Some o => (o, true, None)
      | None => (ObjNil, false, None)
      end
  end.

Definition secretsGet (ns name : string) (w : t)
    : (option Secret.t * option error) * t :=
  match outage w with
  | Some e => ((None, Some e), w)
  | None =>
      match secrets w !! (ns, name) with
      | Some x => ((Some x, None), w)
      | None => ((None, Some notFound), w)
      end
  end.

Definition claimsUpdate (ns : string) (c : Claim) (w : t)
    : (option Claim * option error) * t :=
  match outage w with
  | Some e => ((None, Some e), w)
  | None =>
      match claims w !! (ns, ObjectMeta.Name c) with
      | None => ((None, Some notFound), w)
      | Some cur =>
          if bool_decide (ObjectMeta.ResourceVersion cur = ObjectMeta.ResourceVersion c)
          then ((Some (bump c), None),
                withClaims w (<[(ns, ObjectMeta.Name c) := bump c]> (claims w)) (rivals w))
          else ((None, Some conflict), w)
      end
  end.

Definition claimsGet (ns name : string) (w : t)
    : (option Claim * option error) * t :=
  match outage w with
  | Some e => ((None, Some e), w)
  | None =>
      match claims w !! (ns, name) with
      | None => ((None, Some notFound), w)
      | Some cur =>
          match rivals w with
          | O => ((Some cur, None), w)
          | S r => ((Some cur, None), withClaims w (<[(ns, name) := bump cur]> (claims w)) r)
          end
      end
  end.

Definition podsCreate (ns : string) (pod : Pod.t) (w : t)
    : (option Pod.t * option error) * t :=
  match outage w with
  | Some e => ((None, Some e), w)
  | None => ((Some pod, None), w)
  end.

Global Instance cluster : Cluster t := {|
  GetByKey := getByKey;
  SecretsGet := secretsGet;
  ClaimsUpdate := claimsUpdate;
  ClaimsGet := claimsGet;
  PodsCreate := podsCreate
|}.

(** Values for the constants declared outside this file. *)
Definition consts : Consts := {|
  annEndpoint := "kubevirt.io/storage.import.endpoint";
  annSecret := "kubevirt.io/storage.import.secretName";
  annStatus := "kubevirt.io/storage.import.status";
  annCreatedBy := "kubevirt.io/storage.createdByController";
  IMPORTER_PODNAME := "importer";
  IMPORTER_DATA_DIR := "/data";
  IMPORTER_ENDPOINT := "IMPORTER_ENDPOINT";
  IMPORTER_ACCESS_KEY_ID := "IMPORTER_ACCESS_KEY_ID";
  IMPORTER_SECRET_KEY := "IMPORTER_SECRET_KEY";
  KeyAccess := "accessKeyId";
  KeySecret := "secretKey"
|}.

(** The claim ns/vol1 at resource version 7, with the given annotations. *)
Definition vol1 (anns : gmap string string) : Claim :=
  {| ObjectMeta.Name := "vol1"; ObjectMeta.Namespace := "ns";
     ObjectMeta.ResourceVersion := "7"; ObjectMeta.Annotations := Some anns |}.

(** A server that stores [stored] as ns/vol1 and the secret ns/s3-keys. *)
Definition server (stored : Claim) (r : nat) (out : option error) (ixerr : option error) : t :=
  {| index := {[ "ns/vol1" := ObjPVC (Some 1%positive) ]};
     indexError := ixerr;
     secrets := {[ ("ns", "s3-keys") := Secret.Build "s3-keys" "ns" ∅ ]};
     claims := {[ ("ns", "vol1") := stored ]};
     rivals := r;
     outage := out |}.

(** A program state whose only object in memory is the claim [v], at
    location 1, with its annotations in the map at location 1. *)
Definition memory (v : Claim) (w : t) : State t :=
  {| objs := {[ 1%positive := ObjectMeta.withAnnotations v (Some 1%positive) ]};
     maps := {[ 1%positive := default ∅ (ObjectMeta.Annotations v) ]};
     world := w; calls := []; glog := [] |}.

(** The caller's pointer to the claim in [memory]. *)
Definition pvc : ptr := Some 1%positive.

(** The controller under test. *)
Definition controller : Controller := {| importerImageTag := "latest" |}.

(** ns/vol1 asking for an import, with no credentials and no status yet. *)
Definition plain : Claim :=
  vol1 {[ "kubevirt.io/storage.import.endpoint" := "https://example.org/data.img" ]}.

(** ns/vol1 naming the secret [secret] for its endpoint. *)
Definition withSecret (secret : string) : Claim :=
  vol1 {[ "kubevirt.io/storage.import.endpoint" := "https://example.org/data.img";
          "kubevirt.io/storage.import.secretName" := secret ]}.

(** ns/vol1 already marked with [status]. *)
Definition marked (status : string) : Claim :=
  vol1 {[ "kubevirt.io/storage.import.endpoint" := "https://example.org/data.img";
          "kubevirt.io/storage.import.status" := status ]}.

(** The caller holds [v] and the server stores the same version of it. *)
Definition inSync (v : Claim) : State t := memory v (server v 0 None None).

(** The caller holds [v], which another writer has rewritten once since. *)
Definition stale (v : Claim) : State t := memory v (server (bump v) 0 None None).

(** The caller holds a stale [v] and a rival keeps rewriting the claim. *)
Definition contended (v : Claim) : State t := memory v (server (bump v) 100 None None).

(** The API server is unreachable. *)
Definition unreachable (v : Claim) : State t :=
  memory v (server v 0 (Some (errorString "connection refused")) None).

(** The informer's index reports an error for every key. *)
Definition brokenIndex (v : Claim) : State t :=
  memory v (server v 0 None (Some (errorString "index out of sync"))).

End Fake.

(** ** Observations on the Status Advancer's remote calls *)

Definition isAccepted (ev : Call * option error) : bool :=
  match ev with
  | (CallClaimsUpdate _ _, None) => true
  | _ => false
  end.

(** The number of conditional writes of a trace that the cluster accepted,
    that is, answered with a nil error. *)
Definition accepted (tr : list (Call * option error)) : nat :=
  length (filter (λ ev, isAccepted ev = true) tr).

(** A call on the claims of namespace [ns]: a write, or a read of [name]. *)
Definition isClaimCall (ns name : string) (ev : Call * option error) : bool :=
  match ev with
  | (CallClaimsUpdate ns' _, _) => bool_decide (ns' = ns)
  | (CallClaimsGet ns' name', _) => bool_decide (ns' = ns) && bool_decide (name' = name)
  | _ => false
  end.

(** Whether the claim behind a pointer already carries [status] in its
    status annotation. *)
Definition hasStatus `{Consts} {W} (s : State W) (pvc : ptr) (status : string) : bool :=
  match content s pvc with
  | Some v => bool_decide (annotation v annStatus = Some status)
  | None => false
  end.

(** The error part of a result. *)
Definition errOf {A} (res : Outcome (A * option error)) : Outcome (option error) :=
  match res with
  | Val (_, err) => Val err
  | Panic => Panic
  end.

(** The error setPVCStatus builds for a failed call: the verb is updating or
    getting. *)
Definition statusError (verb ns name : string) (cause : error) : error :=
  Errorf ("setPVCStatus: error %s pvc %s/%s: %v" +:+ LF)
         [ArgS verb; ArgS ns; ArgS name; ArgE cause].

(** The remote calls of a run of the retry loop on the claim [ns]/[name],
    with how the run ends: rounds of a refused write and a re-fetch, then a
    panic, the timeout, an accepted write, a write that failed otherwise, or
    a re-fetch that failed. *)
Inductive statusRun (ns name : string)
    : list (Call * option error) → Outcome (option error) → Prop :=
| run_panic : statusRun ns name [] Panic
| run_timeout : statusRun ns name [] (Val (Some ErrWaitTimeout))
| run_accepted v :
    statusRun ns name [(CallClaimsUpdate ns v, None)] (Val None)
| run_update_error v e :
    IsConflict (Some e) = false →
    statusRun ns name [(CallClaimsUpdate ns v, Some e)]
      (Val (Some (statusError "updating" ns name e)))
| run_get_error v e e' :
    IsConflict (Some e) = true →
    statusRun ns name [(CallClaimsUpdate ns v, Some e); (CallClaimsGet ns name, Some e')]
      (Val (Some (statusError "getting" ns name e')))
| run_retry v e tr res :
    IsConflict (Some e) = true →
    statusRun ns name tr res →
    statusRun ns name
      ((CallClaimsUpdate ns v, Some e) :: (CallClaimsGet ns name, None) :: tr) res.

(** ** A cluster whose claims are contended and cannot be read *)

(** Every write is refused with a conflict and every read of a claim fails;
    pods are created as submitted. *)
Module Flaky.
Definition resetError : error := errorString "connection reset by peer".

Global Instance cluster : Cluster unit := {|
  GetByKey := λ _ _, (ObjNil, false, None);
  SecretsGet := λ _ _ w, ((None, Some Fake.notFound), w);
  ClaimsUpdate := λ _ _ w, ((None, Some Fake.conflict), w);
  ClaimsGet := λ _ _ w, ((None, Some resetError), w);
  PodsCreate := λ _ pod w, ((Some pod, None), w)
|}.

(** The claim [v] in memory at location 1, as in [Fake.memory]. *)
Definition memory (v : Claim) : State unit :=
  {| objs := {[ 1%positive := ObjectMeta.withAnnotations v (Some 1%positive) ]};
     maps := {[ 1%positive := default ∅ (ObjectMeta.Annotations v) ]};
     world := (); calls := []; glog := [] |}.
End Flaky.

(** * Properties *)

Section Proofs.
Context {K : Consts} {W : Type} {C : Cluster W}.
Implicit Types (s : State W) (p pvc : ptr) (l : loc) (v : Claim) (o : PVC).

(** ** Reading a claim *)

Lemma content_Some s p v :
  content s p = Some v →
  ∃ l o, p = Some l ∧ objs s !! l = Some o ∧
    v = ObjectMeta.withAnnotations o (ObjectMeta.Annotations v) ∧
    match ObjectMeta.Annotations o with
    | None => ObjectMeta.Annotations v = None
    | Some m => ∃ g, maps s !! m = Some g ∧ ObjectMeta.Annotations v = Some g
    end.
Proof.
  destruct p as [l|]; [|done]. simpl.
  destruct (objs s !! l) as [o|] eqn:Ho; [|done].
  destruct (ObjectMeta.Annotations o) as [m|] eqn:Ha.
  - destruct (maps s !! m) as [g|] eqn:Hg; [|done].
    intros [= <-]. exists l, o. rewrite Ha. simpl. eauto 10.
  - intros [= <-]. exists l, o. rewrite Ha. simpl. eauto 10.
Qed.

Lemma load_content s p v :
  content s p = Some v →
  ∃ o, load p s = (Val o, s) ∧
    ObjectMeta.Name o = ObjectMeta.Name v ∧
    ObjectMeta.Namespace o = ObjectMeta.Namespace v ∧
    ∀ k, mapIndex (ObjectMeta.Annotations o) k s = (Val (commaOk (annotation v k)), s).
Proof.
  intros (l & o & -> & Ho & Hv & Ha)%content_Some.
  exists o. unfold load. rewrite Ho.
  split_and!; [done | by rewrite Hv | by rewrite Hv |].
  intros k. unfold mapIndex, annotation.
  destruct (ObjectMeta.Annotations o) as [m|].
  - destruct Ha as (g & Hg & ->). unfold bind, readMap. by rewrite Hg.
  - by rewrite Ha.
Qed.

Lemma encode_content s p :
  encode p s = (match content s p with Some v => Val v | None => Panic end, s).
Proof.
  unfold encode, content, bind, load.
  destruct p as [l|]; [|done].
  destruct (objs s !! l) as [o|]; [|done].
  destruct (ObjectMeta.Annotations o) as [m|]; [|done].
  unfold readMap. by destruct (maps s !! m).
Qed.

(** ** Endpoint resolution *)

(** C8: for a claim in memory, getEndpoint returns an error (the missing
    endpoint failure, with the empty string) exactly when the endpoint
    annotation is absent or empty, and otherwise returns the annotation's
    value with no error; either way it leaves the whole state, and so the
    trace of remote calls, as it was. *)
Theorem getEndpoint_missing_iff s pvc v :
  content s pvc = Some v →
  ∃ ep err,
    getEndpoint pvc s = (Val (ep, err), s) ∧
    (is_Some err ↔
       annotation v annEndpoint = None ∨ annotation v annEndpoint = Some "") ∧
    (err = None → annotation v annEndpoint = Some ep) ∧
    (is_Some err →
       ep = "" ∧
       err = Some (Errorf ("getEndpoint: annotation %q in pvc %s/%s is missing or is blank" +:+ LF)
                          [ArgS annEndpoint; ArgS (ObjectMeta.Namespace v);
                           ArgS (ObjectMeta.Name v)])).
Proof.
  intros (o & Hl & Hn & Hns & Hix)%load_content.
  unfold getEndpoint, bind. rewrite Hl, (Hix annEndpoint), Hn, Hns.
  destruct (annotation v annEndpoint) as [ep|]; simpl;
    [case_bool_decide as Hep; simpl|];
    eexists _, _; (split; [done|]);
    repeat split; intros;
    repeat match goal with
           | H : is_Some None |- _ => destruct H as [? [=]]
           | H : _ ∨ _ |- _ => destruct H
           | H : Some _ = None |- _ => discriminate H
           | H : None = Some _ |- _ => discriminate H
           | H : Some _ = Some _ |- _ => injection H as H
           end;
    subst; try done; eauto.
Qed.

(** ** Credential resolution *)

(** C6: for a claim in memory whose credential-reference annotation is
    absent or blank, getSecretName returns the empty name and no error; the
    cluster, the trace of remote calls and the memory are as before (no
    lookup is made), and one line is logged. *)
Theorem getSecretName_blank c s pvc v :
  content s pvc = Some v →
  annotation v annSecret = None ∨ annotation v annSecret = Some "" →
  ∃ line,
    getSecretName c pvc s =
      (Val ("", None),
       mkState (objs s) (maps s) (world s) (calls s) (glog s ++ [line])).
Proof.
  intros (o & Hl & Hn & Hns & Hix)%load_content Hblank.
  unfold getSecretName, bind. rewrite Hl, (Hix annSecret).
  destruct Hblank as [-> | ->]; simpl; eauto.
Qed.

(** C5: for a claim in memory whose credential-reference annotation names a
    secret, getSecretName makes exactly one remote lookup of that secret in
    the claim's namespace.  When the lookup reports not-found, or succeeds,
    the declared name is returned with no error; when it fails with any
    other error [e], the result is the empty name and the lookup error that
    carries [e]. *)
Theorem getSecretName_lookup c s pvc v name r err w' :
  content s pvc = Some v →
  annotation v annSecret = Some name →
  name ≠ "" →
  SecretsGet (ObjectMeta.Namespace v) name (world s) = ((r, err), w') →
  ∃ res s',
    getSecretName c pvc s = (Val res, s') ∧
    calls s' = (calls s ++ [(CallSecretsGet (ObjectMeta.Namespace v) name, err)])%list ∧
    world s' = w' ∧ objs s' = objs s ∧ maps s' = maps s ∧
    (IsNotFound err = true → res = (name, None)) ∧
    (err = None → res = (name, None)) ∧
    (∀ e, err = Some e → IsNotFound err = false →
       res = ("", Some (Errorf ("getEndpointSecret: error getting secret %q defined in pvc "
                                  +:+ DQ +:+ "%s/%s" +:+ DQ +:+ ": %v" +:+ LF)
                               [ArgS name; ArgS (ObjectMeta.Namespace v);
                                ArgS (ObjectMeta.Name v); ArgE e]))).
Proof.
  intros (o & Hl & Hn & Hns & Hix)%load_content Hname Hne Hget.
  unfold getSecretName, bind. rewrite Hl, (Hix annSecret), Hname, Hns, Hn. simpl.
  rewrite bool_decide_eq_false_2 by done. simpl.
  unfold Secrets_Get, remote. simpl. rewrite Hget.
  destruct (IsNotFound err) eqn:Hnf; simpl.
  - eexists _, _. split; [done|]. simpl. split_and!; done.
  - destruct err as [e|]; eexists _, _; (split; [done|]); simpl;
      split_and!; try done.
    by intros ? [= ->].
Qed.

(** ** The worker manifest *)

(** C7: for a claim in memory, the pod that makeImporterPodSpec builds has
    one container, whose environment is the endpoint entry alone (by value)
    when the credential name is empty, and otherwise that entry followed by
    the access-id and access-secret entries, each a secret-key reference to
    the credential name: one entry or exactly three. *)
Theorem makeImporterPodSpec_env c ep secret s l o :
  objs s !! l = Some o →
  ∃ pod c0,
    makeImporterPodSpec c ep secret (Some l) s = (Val pod, s) ∧
    PodSpec.Containers (Pod.Spec pod) = [c0] ∧
    Container.Env c0 = makeEnv ep secret ∧
    (secret = "" →
       makeEnv ep secret = [ EnvVar.Build IMPORTER_ENDPOINT ep None ]) ∧
    (secret ≠ "" →
       makeEnv ep secret =
         [ EnvVar.Build IMPORTER_ENDPOINT ep None;
           EnvVar.Build IMPORTER_ACCESS_KEY_ID ""
             (Some (EnvVarSource.Build (Some (SecretKeySelector.Build secret KeyAccess))));
           EnvVar.Build IMPORTER_SECRET_KEY ""
             (Some (EnvVarSource.Build (Some (SecretKeySelector.Build secret KeySecret)))) ]) ∧
    length (makeEnv ep secret) = (if bool_decide (secret = "") then 1 else 3).
Proof.
  intros Ho. unfold makeImporterPodSpec, bind, load. rewrite Ho. simpl.
  eexists _, _. split; [done|]. simpl. split_and!; try done.
  - intros ->. done.
  - intros Hne. unfold makeEnv. by rewrite bool_decide_eq_false_2.
  - unfold makeEnv. by case_bool_decide.
Qed.

(** C10: for a claim in memory, the pod that makeImporterPodSpec builds
    carries the creation-marker annotation with the value yes, and no other
    annotation, whatever the endpoint, the credential name and the claim. *)
Theorem makeImporterPodSpec_createdBy c ep secret s l o :
  objs s !! l = Some o →
  ∃ pod,
    makeImporterPodSpec c ep secret (Some l) s = (Val pod, s) ∧
    annotation (Pod.ObjectMeta pod) annCreatedBy = Some "yes" ∧
    ObjectMeta.Annotations (Pod.ObjectMeta pod) = Some {[ annCreatedBy := "yes" ]}.
Proof.
  intros Ho. unfold makeImporterPodSpec, bind, load. rewrite Ho. simpl.
  eexists. split; [done|]. unfold annotation. simpl.
  by rewrite lookup_singleton_eq.
Qed.

(** ** The key-to-claim resolution *)

Lemma pvcFromKey_not_found c keyString obj err s :
  GetByKey keyString (world s) = (obj, false, err) →
  pvcFromKey c (KeyString keyString) s = (Val (None, None), s).
Proof.
  intros Hget. unfold pvcFromKey, bind, Indexer_GetByKey. by rewrite Hget.
Qed.

(** ** Running the Status Advancer's steps on a claim in memory *)

Lemma SetMetaDataAnnotation_content s q v k x :
  content s q = Some v →
  ∃ s', SetMetaDataAnnotation q k x s = (Val (), s') ∧
    content s' q = Some (setAnnotation v k x) ∧ sameCluster s s'.
Proof.
  intros (l & o & -> & Ho & Hv & Ha)%content_Some.
  unfold SetMetaDataAnnotation, bind, load. rewrite Ho.
  destruct (ObjectMeta.Annotations o) as [m|] eqn:Hm.
  - destruct Ha as (g & Hg & Hvg).
    unfold mapAssign. rewrite Hg. eexists. split; [done|].
    split; [|done]. simpl. rewrite Ho, Hm, lookup_insert_eq.
    unfold setAnnotation. rewrite Hvg, Hv. done.
  - unfold make, store. simpl. rewrite Ho.
    unfold mapAssign. simpl. rewrite lookup_insert_eq.
    eexists. split; [done|]. split; [|done].
    simpl. rewrite !lookup_insert_eq. simpl. rewrite lookup_insert_eq.
    unfold setAnnotation. rewrite Ha, Hv. done.
Qed.

Lemma decode_content (r : option Claim) s :
  ∃ q s', decode r s = (Val q, s') ∧ sameCluster s s' ∧
    match r with
    | Some c => content s' q = Some c
    | None => q = None
    end.
Proof.
  destruct r as [c|]; simpl; [|by eexists _, _].
  unfold bind. destruct (ObjectMeta.Annotations c) as [g|] eqn:Hg.
  - unfold make, new. simpl. eexists _, _. split; [done|]. split; [done|].
    simpl. rewrite !lookup_insert_eq. simpl. rewrite lookup_insert_eq.
    destruct c; simpl in *; by subst.
  - unfold ret, new. simpl. eexists _, _. split; [done|]. split; [done|].
    simpl. rewrite !lookup_insert_eq. simpl.
    destruct c; simpl in *; by subst.
Qed.

Lemma DeepCopy_content s p v :
  content s p = Some v →
  ∃ q s', DeepCopy p s = (Val q, s') ∧ content s' q = Some v ∧ sameCluster s s'.
Proof.
  intros (l & o & -> & Ho & Hv & Ha)%content_Some.
  unfold DeepCopy, bind, load. rewrite Ho.
  destruct (ObjectMeta.Annotations o) as [m|] eqn:Hm.
  - destruct Ha as (g & Hg & Hvg). unfold readMap. rewrite Hg.
    unfold make, new. simpl. eexists _, _. split; [done|]. split; [|done].
    simpl. rewrite !lookup_insert_eq. simpl. rewrite lookup_insert_eq.
    rewrite Hv, Hvg. done.
  - unfold ret, new. simpl. eexists _, _. split; [done|]. split; [|done].
    simpl. rewrite !lookup_insert_eq. simpl. rewrite Hv, Ha. done.
Qed.

Lemma Update_run ns s q v r err w' :
  content s q = Some v →
  ClaimsUpdate ns v (world s) = ((r, err), w') →
  ∃ q' s', PersistentVolumeClaims_Update ns q s = (Val (q', err), s') ∧
    world s' = w' ∧
    calls s' = (calls s ++ [(CallClaimsUpdate ns v, err)])%list ∧
    glog s' = glog s ∧
    match r with
    | Some c => content s' q' = Some c
    | None => q' = None
    end.
Proof.
  intros Hq Hup. unfold PersistentVolumeClaims_Update.
  unfold bind at 1. rewrite encode_content, Hq.
  unfold bind at 1. unfold remote. rewrite Hup.
  unfold bind.
  match goal with |- context [decode r ?s1] =>
    destruct (decode_content r s1) as (q' & s' & -> & (Hw & Hc & Hg) & Hr) end.
  eexists _, _. split; [done|]. simpl in *. by rewrite Hw, Hc, Hg.
Qed.

Lemma Get_run ns name s r err w' :
  ClaimsGet ns name (world s) = ((r, err), w') →
  ∃ q' s', PersistentVolumeClaims_Get ns name s = (Val (q', err), s') ∧
    world s' = w' ∧
    calls s' = (calls s ++ [(CallClaimsGet ns name, err)])%list ∧
    glog s' = glog s ∧
    match r with
    | Some c => content s' q' = Some c
    | None => q' = None
    end.
Proof.
  intros Hget. unfold PersistentVolumeClaims_Get.
  unfold bind at 1. unfold remote. rewrite Hget.
  unfold bind.
  match goal with |- context [decode r ?s1] =>
    destruct (decode_content r s1) as (q' & s' & -> & (Hw & Hc & Hg) & Hr) end.
  eexists _, _. split; [done|]. simpl in *. by rewrite Hw, Hc, Hg.
Qed.

Lemma IsConflict_Some err : IsConflict err = true → ∃ e, err = Some e.
Proof. destruct err; [eauto|done]. Qed.

(** An attempt whose write the cluster accepts. *)
Lemma attempt_accepted o status s q x v r w' :
  content s q = Some v →
  ClaimsUpdate (ObjectMeta.Namespace o) (setAnnotation v annStatus status) (world s)
    = ((r, None), w') →
  ∃ newPVC s',
    setPVCStatus_attempt o status (q, x) s = (Val ((q, newPVC), (true, None)), s') ∧
    world s' = w' ∧
    calls s' = (calls s ++ [(CallClaimsUpdate (ObjectMeta.Namespace o)
                               (setAnnotation v annStatus status), None)])%list ∧
    glog s' = glog s ∧
    match r with
    | Some stored => content s' newPVC = Some stored
    | None => newPVC = None
    end.
Proof.
  intros Hq Hup. unfold setPVCStatus_attempt.
  destruct (SetMetaDataAnnotation_content s q v annStatus status Hq)
    as (s1 & Hset & Hq1 & Hw1 & Hc1 & Hg1).
  unfold bind at 1. rewrite Hset. rewrite <- Hw1 in Hup.
  destruct (Update_run _ _ _ _ _ _ _ Hq1 Hup) as (q' & s2 & Hrun & Hw2 & Hc2 & Hg2 & Hr).
  unfold bind. rewrite Hrun. eexists _, _. split; [done|].
  by rewrite Hc2, Hg2, Hc1, Hg1.
Qed.

(** An attempt whose write is refused with a conflict, the re-fetch that
    follows succeeding. *)
Lemma attempt_refused o status s q x v r err w1 latest w2 :
  content s q = Some v →
  ClaimsUpdate (ObjectMeta.Namespace o) (setAnnotation v annStatus status) (world s)
    = ((r, err), w1) →
  IsConflict err = true →
  ClaimsGet (ObjectMeta.Namespace o) (ObjectMeta.Name o) w1 = ((Some latest, None), w2) →
  ∃ q' newPVC s',
    setPVCStatus_attempt o status (q, x) s = (Val ((q', newPVC), (false, None)), s') ∧
    content s' q' = Some latest ∧
    world s' = w2 ∧
    calls s' = (calls s ++
                  [(CallClaimsUpdate (ObjectMeta.Namespace o)
                      (setAnnotation v annStatus status), err);
                   (CallClaimsGet (ObjectMeta.Namespace o) (ObjectMeta.Name o), None)])%list ∧
    glog s' = glog s.
Proof.
  intros Hq Hup Hconf Hget. unfold setPVCStatus_attempt.
  destruct (SetMetaDataAnnotation_content s q v annStatus status Hq)
    as (s1 & Hset & Hq1 & Hw1 & Hc1 & Hg1).
  unfold bind at 1. rewrite Hset. rewrite <- Hw1 in Hup.
  destruct (Update_run _ _ _ _ _ _ _ Hq1 Hup) as (q' & s2 & Hrun & Hw2 & Hc2 & Hg2 & _).
  unfold bind at 1. rewrite Hrun.
  destruct (IsConflict_Some _ Hconf) as [e ->]. rewrite Hconf.
  rewrite <- Hw2 in Hget.
  destruct (Get_run _ _ _ _ _ _ Hget) as (q2 & s3 & Hrun3 & Hw3 & Hc3 & Hg3 & Hr3).
  unfold bind. rewrite Hrun3. eexists _, _, _. split; [done|].
  rewrite Hc3, Hg3, Hc2, Hg2, Hc1, Hg1, <- app_assoc. done.
Qed.

Lemma WaitFor_unfold {V} n (fn : V → M W (V * (bool * option error))) (a : V) :
  WaitFor n fn a =
  ('(a, (ok, err)) <- fn a;
   match err with
   | Some e => ret (a, Some e)
   | None =>
       if ok then ret (a, None)
       else match n with
            | O => ret (a, Some ErrWaitTimeout)
            | S n => WaitFor n fn a
            end
   end).
Proof. by destruct n. Qed.

Lemma poller_4 ticks : poller (Second * 1)%Z (Second * 4)%Z ticks = ticks `min` 4.
Proof. done. Qed.

Lemma updates_app tr tr' : updates (tr ++ tr') = updates tr + updates tr'.
Proof. unfold updates. by rewrite filter_app, length_app. Qed.

(** The start of setPVCStatus on a claim whose status differs: the claim is
    cloned and the poll begins with the clone. *)
Lemma setPVCStatus_begin c s pvc v status ticks :
  content s pvc = Some v →
  annotation v annStatus ≠ Some status →
  ∃ o q s1,
    ObjectMeta.Name o = ObjectMeta.Name v ∧
    ObjectMeta.Namespace o = ObjectMeta.Namespace v ∧
    content s1 q = Some v ∧ sameCluster s s1 ∧
    setPVCStatus c pvc status ticks s =
      ('((_, newPVC), err) <- PollImmediate (Second * 1)%Z (Second * 4)%Z ticks
                                (setPVCStatus_attempt o status) (q, (None : ptr));
       ret (newPVC, err)) s1.
Proof.
  intros Hv Hne.
  destruct (load_content _ _ _ Hv) as (o & Hl & Hn & Hns & Hix).
  destruct (DeepCopy_content _ _ _ Hv) as (q & s1 & Hcopy & Hq & Hsame).
  exists o, q, s1. split_and!; try done.
  unfold setPVCStatus. unfold bind at 1. rewrite Hl.
  unfold bind at 1. rewrite (Hix annStatus).
  destruct (annotation v annStatus) as [val|] eqn:Hval; simpl.
  - rewrite bool_decide_eq_false_2 by congruence.
    unfold bind at 1. by rewrite Hcopy.
  - unfold bind at 1. by rewrite Hcopy.
Qed.

(** ** The Status Advancer: idempotence and retry on conflict *)

(** C2, as amended: setPVCStatus on a claim in memory whose status
    annotation already equals the target returns that very claim and no
    error and leaves the whole state as it was, so no write is issued.
    Consequently, when the status differs and the cluster accepts the first
    write at once and answers with the stored claim carrying the target
    status, invoking setPVCStatus and then invoking it again on the claim
    it returned adds exactly one conditional write, and nothing else, to
    the trace of remote calls.  (The caller's own claim is never given the
    status, so a second call on it writes again.) *)
Theorem setPVCStatus_idempotent c status ticks ticks' :
  (∀ s pvc v,
     content s pvc = Some v →
     annotation v annStatus = Some status →
     setPVCStatus c pvc status ticks s = (Val (pvc, None), s)) ∧
  (∀ s pvc v stored w',
     content s pvc = Some v →
     annotation v annStatus ≠ Some status →
     ClaimsUpdate (ObjectMeta.Namespace v) (setAnnotation v annStatus status) (world s)
       = ((Some stored, None), w') →
     annotation stored annStatus = Some status →
     ∃ newPVC s1,
       setPVCStatus c pvc status ticks s = (Val (newPVC, None), s1) ∧
       content s1 newPVC = Some stored ∧
       setPVCStatus c newPVC status ticks' s1 = (Val (newPVC, None), s1) ∧
       calls s1 = (calls s ++ [(CallClaimsUpdate (ObjectMeta.Namespace v)
                                  (setAnnotation v annStatus status), None)])%list).
Proof.
  assert (Hsame : ∀ n s pvc v,
            content s pvc = Some v → annotation v annStatus = Some status →
            setPVCStatus c pvc status n s = (Val (pvc, None), s)).
  { intros n s pvc v (o & Hl & _ & _ & Hix)%load_content Hann.
    unfold setPVCStatus, bind. rewrite Hl, (Hix annStatus), Hann. simpl.
    by rewrite bool_decide_eq_true_2. }
  split; [by apply Hsame|].
  intros s pvc v stored w' Hv Hne Hup Hst.
  destruct (setPVCStatus_begin c s pvc v status ticks Hv Hne)
    as (o & q & s1 & Hn & Hns & Hq & (Hw1 & Hc1 & Hg1) & ->).
  rewrite <- Hns, <- Hw1 in Hup.
  destruct (attempt_accepted o status s1 q None v _ _ Hq Hup)
    as (newPVC & s2 & Hrun & Hw2 & Hc2 & Hg2 & Hnew).
  unfold PollImmediate, bind. cbv beta. rewrite Hrun.
  exists newPVC, s2. split_and!; try done.
  - by apply (Hsame _ _ _ stored).
  - by rewrite Hc2, Hc1, Hns.
Qed.

(** C1: for a claim in memory whose status annotation differs from the
    target, when the first conditional write is refused with a conflict,
    the re-fetch of the claim succeeds and the write of the re-fetched claim
    with the status set is accepted, setPVCStatus returns the claim the
    cluster stored and no error, after exactly these three remote calls:
    within the budget, whatever the number of poller signals. *)
Theorem setPVCStatus_conflict_retry c s pvc v status ticks r e w1 latest w2 stored w3 :
  content s pvc = Some v →
  annotation v annStatus ≠ Some status →
  ClaimsUpdate (ObjectMeta.Namespace v) (setAnnotation v annStatus status) (world s)
    = ((r, Some e), w1) →
  IsConflict (Some e) = true →
  ClaimsGet (ObjectMeta.Namespace v) (ObjectMeta.Name v) w1 = ((Some latest, None), w2) →
  ClaimsUpdate (ObjectMeta.Namespace v) (setAnnotation latest annStatus status) w2
    = ((Some stored, None), w3) →
  ∃ newPVC s',
    setPVCStatus c pvc status ticks s = (Val (newPVC, None), s') ∧
    content s' newPVC = Some stored ∧
    world s' = w3 ∧
    calls s' =
      (calls s ++
         [(CallClaimsUpdate (ObjectMeta.Namespace v) (setAnnotation v annStatus status),
           Some e);
          (CallClaimsGet (ObjectMeta.Namespace v) (ObjectMeta.Name v), None);
          (CallClaimsUpdate (ObjectMeta.Namespace v) (setAnnotation latest annStatus status),
           None)])%list.
Proof.
  intros Hv Hne Hup Hconf Hget Hup2.
  destruct (setPVCStatus_begin c s pvc v status ticks Hv Hne)
    as (o & q & s1 & Hn & Hns & Hq & (Hw1 & Hc1 & Hg1) & ->).
  rewrite <- Hns in Hup, Hget, Hup2. rewrite <- Hn in Hget. rewrite <- Hw1 in Hup.
  destruct (attempt_refused o status s1 q None v _ _ _ _ _ Hq Hup Hconf Hget)
    as (q2 & x2 & s2 & Hrun & Hq2 & Hw2 & Hc2 & Hg2).
  rewrite <- Hw2 in Hup2.
  destruct (attempt_accepted o status s2 q2 x2 latest _ _ Hq2 Hup2)
    as (newPVC & s3 & Hrun3 & Hw3 & Hc3 & Hg3 & Hnew).
  unfold PollImmediate. unfold bind at 1 2. cbv beta. rewrite Hrun.
  rewrite WaitFor_unfold. unfold bind. rewrite Hrun3.
  exists newPVC, s3. split_and!; try done.
  rewrite Hc3, Hc2, Hc1, <- Hns, <- Hn, <- app_assoc. done.
Qed.

(** ** What every run leaves alone *)

Lemma untouched_refl l a s : untouched l a s s.
Proof. done. Qed.

Lemma untouched_trans l a s1 s2 s3 :
  untouched l a s1 s2 → untouched l a s2 s3 → untouched l a s1 s3.
Proof.
  intros (Ho & Hm & Hd & Hd') (Ho' & Hm' & Hd2 & Hd2'). split_and!.
  - by rewrite Ho'.
  - intros m Hma. by rewrite Hm', Hm.
  - set_solver.
  - set_solver.
Qed.

Lemma valid_untouched l a s s' : valid l a s → untouched l a s s' → valid l a s'.
Proof.
  intros [Hl Ha] (_ & _ & Hd & Hd'). split; [set_solver|].
  intros m Hm. specialize (Ha m Hm). set_solver.
Qed.

Lemma apart_nil l a s : apart l a s None.
Proof. by intros lq. Qed.

(** Allocating an object whose map is fresh or nil. *)
Lemma new_frame l a s o' r s' :
  valid l a s →
  (∀ m, ObjectMeta.Annotations o' = Some m → a ≠ Some m) →
  new o' s = (r, s') →
  untouched l a s s' ∧ sameCluster s s' ∧
  (∃ q, r = Val q ∧ apart l a s' q) ∧
  (∀ q1, apart l a s q1 → apart l a s' q1).
Proof.
  intros [Hl Ha] Ho' [= <- <-].
  pose proof (is_fresh (dom (objs s))) as Hfresh.
  assert (fresh (dom (objs s)) ≠ l) as Hne by (intros Heq; by rewrite Heq in Hfresh).
  split_and!; simpl; try done.
  - split_and!; simpl; try done.
    + by rewrite lookup_insert_ne.
    + set_solver.
  - eexists. split; [done|]. intros lq [= <-]. split; [done|].
    simpl. rewrite lookup_insert_eq. intros oq m [= <-]. apply Ho'.
  - intros q1 Hq1 lq ->. destruct (Hq1 lq eq_refl) as [Hlq Hmap].
    split; [done|]. simpl. intros oq m.
    destruct (decide (fresh (dom (objs s)) = lq)) as [<-|Hd].
    + rewrite lookup_insert_eq. intros [= <-]. apply Ho'.
    + rewrite lookup_insert_ne by done. apply Hmap.
Qed.

(** Allocating a map. *)
Lemma make_frame l a s g m' s' :
  valid l a s →
  make g s = (Val m', s') →
  untouched l a s s' ∧ sameCluster s s' ∧ a ≠ Some m' ∧
  (∀ q1, apart l a s q1 → apart l a s' q1).
Proof.
  intros [Hl Ha] [= <- <-].
  pose proof (is_fresh (dom (maps s))) as Hfresh.
  assert (a ≠ Some (fresh (dom (maps s)))) as Hne.
  { intros Heq. by apply Hfresh, Ha. }
  split_and!; simpl; try done.
  split_and!; simpl; try done.
  - intros m ->. rewrite lookup_insert_ne; [done|]. congruence.
  - set_solver.
Qed.

Lemma decode_frame l a s (r : option Claim) res s' :
  valid l a s →
  decode r s = (res, s') →
  untouched l a s s' ∧ sameCluster s s' ∧
  (∃ q, res = Val q ∧ apart l a s' q) ∧
  (∀ q1, apart l a s q1 → apart l a s' q1).
Proof.
  intros Hv. destruct r as [c|]; simpl.
  2:{ intros [= <- <-]. split_and!; try done. eexists. split; [done|]. apply apart_nil. }
  unfold bind. destruct (ObjectMeta.Annotations c) as [g|].
  - destruct (make g s) as [rm s1] eqn:Hmk.
    assert (∃ m', rm = Val m') as [m' ->] by (injection Hmk as <- _; eauto).
    destruct (make_frame l a s g m' s1 Hv Hmk) as (Hu1 & (Hw1 & Hc1 & Hg1) & Hne & Hap1).
    unfold ret. intros Hnew.
    apply (new_frame l a) in Hnew as (Hu2 & (Hw2 & Hc2 & Hg2) & Hq & Hap2).
    + split_and!; try done.
      * by eapply untouched_trans.
      * split_and!; congruence.
      * intros q1 Hq1. by apply Hap2, Hap1.
    + by eapply valid_untouched.
    + simpl. by intros m [= <-].
  - unfold ret. intros Hnew.
    apply (new_frame l a) in Hnew as (Hu2 & Hs2 & Hq & Hap2); done.
Qed.

Lemma DeepCopy_frame l a s p res s' :
  valid l a s →
  DeepCopy p s = (res, s') →
  untouched l a s s' ∧ sameCluster s s' ∧
  (∀ q, res = Val q → apart l a s' q).
Proof.
  intros Hv. unfold DeepCopy. destruct p as [lp|].
  2:{ intros [= <- <-]. split_and!; try done. intros q [= <-]. apply apart_nil. }
  unfold bind, load. destruct (objs s !! lp) as [o|].
  2:{ intros [= <- <-]. split_and!; done. }
  destruct (ObjectMeta.Annotations o) as [m|].
  - unfold readMap. destruct (maps s !! m) as [g|].
    2:{ intros [= <- <-]. split_and!; done. }
    destruct (make g s) as [rm s1] eqn:Hmk.
    assert (∃ m', rm = Val m') as [m' ->] by (injection Hmk as <- _; eauto).
    destruct (make_frame l a s g m' s1 Hv Hmk) as (Hu1 & (Hw1 & Hc1 & Hg1) & Hne & Hap1).
    unfold ret. intros Hnew.
    apply (new_frame l a) in Hnew as (Hu2 & (Hw2 & Hc2 & Hg2) & (q & -> & Hq) & Hap2).
    + split_and!.
      * by eapply untouched_trans.
      * split_and!; congruence.
      * by intros ? [= <-].
    + by eapply valid_untouched.
    + simpl. by intros ? [= <-].
  - unfold ret. intros Hnew.
    apply (new_frame l a) in Hnew as (Hu2 & Hs2 & (q & -> & Hq) & Hap2); try done.
    split_and!; try done. by intros ? [= <-].
Qed.

Lemma SetMetaDataAnnotation_frame l a s q k x res s' :
  valid l a s →
  apart l a s q →
  SetMetaDataAnnotation q k x s = (res, s') →
  untouched l a s s' ∧ sameCluster s s' ∧ apart l a s' q.
Proof.
  intros Hv Hq. unfold SetMetaDataAnnotation, bind, load.
  destruct q as [lq|]; [|by intros [= <- <-]].
  destruct (objs s !! lq) as [oq|] eqn:Hoq; [|by intros [= <- <-]].
  destruct (Hq lq eq_refl) as [Hlq Hmap].
  destruct (ObjectMeta.Annotations oq) as [m|] eqn:Hm.
  - unfold mapAssign. destruct (maps s !! m) as [g|]; [|by intros [= <- <-]].
    intros [= <- <-]. specialize (Hmap oq m Hoq Hm).
    split_and!; try done.
    split_and!; simpl; try done.
    + intros m0 ->. rewrite lookup_insert_ne; [done|]. congruence.
    + set_solver.
  - destruct (make ∅ s) as [rm s1] eqn:Hmk.
    assert (∃ m', rm = Val m') as [m' ->] by (injection Hmk as <- _; eauto).
    destruct (make_frame l a s ∅ m' s1 Hv Hmk) as (Hu1 & (Hw1 & Hc1 & Hg1) & Hne & Hap1).
    injection Hmk as <- <-. unfold store, mapAssign. simpl. rewrite Hoq. simpl.
    rewrite lookup_insert_eq. intros [= <- <-].
    split_and!; try done.
    + split_and!; simpl; try done.
      * by rewrite lookup_insert_ne.
      * intros m0 ->. rewrite !lookup_insert_ne; [done|congruence|congruence].
      * set_solver.
      * set_solver.
    + intros ? [= <-]. split; [done|]. simpl. rewrite lookup_insert_eq.
      by intros ?? [= <-] [= <-].
Qed.

Lemma remote_frame {R} s call (op : W → (R * option error) * W) :
  ∃ r err s', remote call op s = (Val (r, err), s') ∧
    objs s' = objs s ∧ maps s' = maps s ∧
    calls s' = (calls s ++ [(call, err)])%list.
Proof.
  unfold remote. destruct (op (world s)) as [[r err] w']. by eexists _, _, _.
Qed.

Lemma same_heap_untouched l a s s' :
  objs s' = objs s → maps s' = maps s → untouched l a s s'.
Proof. intros Ho Hm. unfold untouched. by rewrite Ho, Hm. Qed.

Lemma same_heap_apart l a s s' q :
  objs s' = objs s → apart l a s q → apart l a s' q.
Proof. intros Ho Hq. unfold apart. by rewrite Ho. Qed.

Lemma Update_frame l a s ns q res s' :
  valid l a s →
  PersistentVolumeClaims_Update ns q s = (res, s') →
  untouched l a s s' ∧
  (∀ q' e, res = Val (q', e) → apart l a s' q') ∧
  (∀ q1, apart l a s q1 → apart l a s' q1) ∧
  (updates (calls s') ≤ updates (calls s) + 1)%nat.
Proof.
  intros Hv. unfold PersistentVolumeClaims_Update.
  unfold bind at 1. rewrite encode_content.
  destruct (content s q) as [v|].
  2:{ intros [= <- <-]. split_and!; try done. lia. }
  destruct (remote_frame s (CallClaimsUpdate ns v) (ClaimsUpdate ns v))
    as (r & err & s1 & Hrem & Ho1 & Hm1 & Hc1).
  unfold bind at 1. rewrite Hrem. unfold bind.
  destruct (decode r s1) as [dres s2] eqn:Hdec.
  apply (decode_frame l a) in Hdec
    as (Hu2 & (Hw2 & Hc2 & Hg2) & (q' & -> & Hq') & Hap2).
  2:{ eapply valid_untouched; [done|]. by apply same_heap_untouched. }
  intros [= <- <-]. split_and!.
  - eapply untouched_trans; [|done]. by apply same_heap_untouched.
  - by intros ?? [= <- _].
  - intros q1 Hq1. by eapply Hap2, same_heap_apart.
  - rewrite Hc2, Hc1, updates_app. done.
Qed.

Lemma Get_frame l a s ns name res s' :
  valid l a s →
  PersistentVolumeClaims_Get ns name s = (res, s') →
  untouched l a s s' ∧
  (∀ q' e, res = Val (q', e) → apart l a s' q') ∧
  updates (calls s') = updates (calls s).
Proof.
  intros Hv. unfold PersistentVolumeClaims_Get.
  destruct (remote_frame s (CallClaimsGet ns name) (ClaimsGet ns name))
    as (r & err & s1 & Hrem & Ho1 & Hm1 & Hc1).
  unfold bind at 1. rewrite Hrem. unfold bind.
  destruct (decode r s1) as [dres s2] eqn:Hdec.
  apply (decode_frame l a) in Hdec
    as (Hu2 & (Hw2 & Hc2 & Hg2) & (q' & -> & Hq') & Hap2).
  2:{ eapply valid_untouched; [done|]. by apply same_heap_untouched. }
  intros [= <- <-]. split_and!.
  - eapply untouched_trans; [|done]. by apply same_heap_untouched.
  - by intros ?? [= <- _].
  - rewrite Hc2, Hc1, updates_app.
    change (updates [(CallClaimsGet ns name, err)]) with 0. lia.
Qed.

(** One attempt, whatever the cluster answers: the caller's claim is left
    alone, the clone stays apart from it, and at most one write is made. *)
Lemma attempt_frame l a o status s q x res s' :
  valid l a s →
  apart l a s q →
  setPVCStatus_attempt o status (q, x) s = (res, s') →
  untouched l a s s' ∧
  (∀ q' x' b, res = Val ((q', x'), b) → apart l a s' q') ∧
  (updates (calls s') ≤ updates (calls s) + 1)%nat.
Proof.
  intros Hv Hq. unfold setPVCStatus_attempt. unfold bind at 1.
  destruct (SetMetaDataAnnotation q annStatus status s) as [r1 s1] eqn:Hset.
  apply (SetMetaDataAnnotation_frame l a) in Hset as (Hu1 & (Hw1 & Hc1 & Hg1) & Hq1); try done.
  destruct r1 as [[]|].
  2:{ intros [= <- <-]. split_and!; try done. rewrite Hc1. lia. }
  pose proof (valid_untouched _ _ _ _ Hv Hu1) as Hv1.
  unfold bind at 1.
  destruct (PersistentVolumeClaims_Update (ObjectMeta.Namespace o) q s1) as [r2 s2] eqn:Hupd.
  apply (Update_frame l a) in Hupd as (Hu2 & Hnew & Hap2 & Hc2); try done.
  pose proof (untouched_trans _ _ _ _ _ Hu1 Hu2) as Hu12.
  rewrite Hc1 in Hc2.
  destruct r2 as [[newPVC err]|].
  2:{ intros [= <- <-]. split_and!; done. }
  destruct err as [e|].
  2:{ intros [= <- <-]. split_and!; try done. intros ??? [= <- _ _]. by apply Hap2. }
  destruct (IsConflict (Some e)).
  2:{ intros [= <- <-]. split_and!; try done. intros ??? [= <- _ _]. by apply Hap2. }
  pose proof (valid_untouched _ _ _ _ Hv Hu12) as Hv2.
  unfold bind.
  destruct (PersistentVolumeClaims_Get (ObjectMeta.Namespace o) (ObjectMeta.Name o) s2)
    as [r3 s3] eqn:Hget.
  apply (Get_frame l a) in Hget as (Hu3 & Hq3 & Hc3); try done.
  pose proof (untouched_trans _ _ _ _ _ Hu12 Hu3) as Hu123.
  rewrite <- Hc3 in Hc2.
  destruct r3 as [[pvcClone err']|].
  2:{ intros [= <- <-]. split_and!; done. }
  destruct err'; intros [= <- <-]; (split_and!; [done| |done]);
    intros ??? [= <- _ _]; by eapply Hq3.
Qed.

Lemma WaitFor_frame l a o status n :
  ∀ q x s res s',
    valid l a s →
    apart l a s q →
    WaitFor n (setPVCStatus_attempt o status) (q, x) s = (res, s') →
    untouched l a s s' ∧ (updates (calls s') ≤ updates (calls s) + S n)%nat.
Proof.
  induction n as [|n IH]; intros q x s res s' Hv Hq; rewrite WaitFor_unfold;
    unfold bind;
    destruct (setPVCStatus_attempt o status (q, x) s) as [r1 s1] eqn:Hat;
    apply (attempt_frame l a) in Hat as (Hu1 & Hq1 & Hc1); try done;
    (destruct r1 as [[[q' x'] [ok [e|]]]|]; [| destruct ok |]);
    try (intros [= <- <-]; split; [done|lia]).
  intros Hrec. apply IH in Hrec as [Hu2 Hc2].
  - split; [by eapply untouched_trans|lia].
  - by eapply valid_untouched.
  - by eapply Hq1.
Qed.

Lemma persistentConflict_S n ns name status v (w : W) :
  persistentConflict (S n) ns name status v w = true →
  ∃ r err w1 latest w2,
    ClaimsUpdate ns (setAnnotation v annStatus status) w = ((r, err), w1) ∧
    IsConflict err = true ∧
    ClaimsGet ns name w1 = ((Some latest, None), w2) ∧
    persistentConflict n ns name status latest w2 = true.
Proof.
  simpl.
  destruct (ClaimsUpdate ns (setAnnotation v annStatus status) w) as [[r err] w1].
  intros [Hc Hrest]%andb_prop.
  destruct (ClaimsGet ns name w1) as [[[latest|] [e|]] w2] eqn:Hget; try done.
  by exists r, err, w1, latest, w2.
Qed.

Lemma WaitFor_conflicts o status n :
  ∀ q x s v,
    content s q = Some v →
    persistentConflict (S n) (ObjectMeta.Namespace o) (ObjectMeta.Name o) status v (world s)
      = true →
    ∃ r s',
      WaitFor n (setPVCStatus_attempt o status) (q, x) s
        = (Val (r, Some ErrWaitTimeout), s') ∧
      updates (calls s') = updates (calls s) + S n.
Proof.
  induction n as [|n IH]; intros q x s v Hq
    (r & err & w1 & latest & w2 & Hup & Hconf & Hget & Hrest)%persistentConflict_S;
    destruct (attempt_refused o status s q x v _ _ _ _ _ Hq Hup Hconf Hget)
      as (q' & x' & s1 & Hrun & Hq' & Hw1 & Hc1 & Hg1);
    rewrite WaitFor_unfold; unfold bind; rewrite Hrun.
  - eexists _, _. split; [done|]. rewrite Hc1, updates_app. done.
  - rewrite <- Hw1 in Hrest.
    destruct (IH q' x' s1 latest Hq' Hrest) as (r' & s' & -> & Hc').
    eexists _, _. split; [done|]. rewrite Hc', Hc1, updates_app.
    change (updates [_; _]) with 1. lia.
Qed.

(** ** The Status Advancer: bounded retries and the caller's claim *)

Lemma load_run s p (res : Outcome PVC) s' :
  load p s = (res, s') →
  s' = s ∧ ∀ o, res = Val o → ∃ l, p = Some l ∧ objs s !! l = Some o.
Proof.
  unfold load. destruct p as [l|]; [|by intros [= <- <-]].
  destruct (objs s !! l) as [o|] eqn:Ho; intros [= <- <-]; [|done].
  split; [done|]. intros ? [= <-]. by exists l.
Qed.

Lemma mapIndex_run s (a : option loc) k (res : Outcome (string * bool)) s' :
  mapIndex a k s = (res, s') →
  s' = s ∧ ∀ x, res = Val x → ∀ m, a = Some m → m ∈ dom (maps s).
Proof.
  unfold mapIndex. destruct a as [m|]; [|by intros [= <- <-]].
  unfold bind, readMap. destruct (maps s !! m) as [g|] eqn:Hg; intros [= <- <-]; [|done].
  split; [done|]. intros ? _ ? [= <-]. by apply elem_of_dom.
Qed.

(** Every run of setPVCStatus leaves the caller's claim alone and makes at
    most two writes more than the poller signals it takes. *)
Lemma setPVCStatus_frame c s pvc status ticks res s' :
  setPVCStatus c pvc status ticks s = (res, s') →
  (∀ l o, pvc = Some l → objs s !! l = Some o →
     untouched l (ObjectMeta.Annotations o) s s') ∧
  (updates (calls s') ≤ updates (calls s) + (ticks `min` 4 + 2))%nat.
Proof.
  unfold setPVCStatus. unfold bind at 1.
  destruct (load pvc s) as [ro s0] eqn:Hl.
  apply load_run in Hl as [-> Hl].
  destruct ro as [o|]; [|intros [= <- <-]; split; [done|lia]].
  destruct (Hl o eq_refl) as (l & -> & Ho).
  unfold bind at 1.
  destruct (mapIndex (ObjectMeta.Annotations o) annStatus s) as [rx s0] eqn:Hix.
  apply mapIndex_run in Hix as [-> Hix].
  destruct rx as [[val ok]|]; [|intros [= <- <-]; split; [done|lia]].
  assert (valid l (ObjectMeta.Annotations o) s) as Hv.
  { split; [by apply elem_of_dom|]. by eapply Hix. }
  destruct (ok && bool_decide (val = status)).
  { intros [= <- <-]. split; [by intros ?? [= <-]|lia]. }
  unfold bind at 1.
  destruct (DeepCopy (Some l) s) as [rc s1] eqn:Hcopy.
  apply (DeepCopy_frame l (ObjectMeta.Annotations o)) in Hcopy
    as (Hu1 & (Hw1 & Hc1 & Hg1) & Hq); [|done].
  destruct rc as [q|].
  2:{ intros [= <- <-]. split; [|rewrite Hc1; lia].
      intros ?? [= <-] ?. by simplify_eq. }
  specialize (Hq q eq_refl). pose proof (valid_untouched _ _ _ _ Hv Hu1) as Hv1.
  unfold PollImmediate, bind. cbv beta.
  destruct (setPVCStatus_attempt o status _ s1) as [r2 s2] eqn:Hat.
  apply (attempt_frame l (ObjectMeta.Annotations o)) in Hat as (Hu2 & Hq2 & Hc2); try done.
  pose proof (untouched_trans _ _ _ _ _ Hu1 Hu2) as Hu12.
  rewrite Hc1 in Hc2.
  assert (∀ l0 o0, Some l = Some l0 → objs s !! l0 = Some o0 →
            untouched l0 (ObjectMeta.Annotations o0) s s2) as Hdone.
  { intros ?? [= <-] ?. by simplify_eq. }
  destruct r2 as [[[q' x'] [fin [e|]]]|]; [| destruct fin |];
    unfold ret; try (intros [= <- <-]; split; [exact Hdone|lia]).
  rewrite poller_4.
  destruct (WaitFor (ticks `min` 4) (setPVCStatus_attempt o status) (q', x') s2)
    as [r3 s3] eqn:Hwait.
  apply (WaitFor_frame l (ObjectMeta.Annotations o)) in Hwait as [Hu3 Hc3].
  - intros Hres.
    assert (s' = s3) as -> by (repeat case_match; congruence).
    split; [|lia]. intros ?? [= <-] ?. simplify_eq. by eapply untouched_trans.
  - by eapply valid_untouched.
  - by eapply Hq2.
Qed.

(** C3: setPVCStatus is a total function whose retry loop is bounded: with
    a poll interval of one second and a budget of four, every run, whatever
    the cluster answers and however many signals the loop could take, makes
    at most six conditional writes.  When the status differs and every write
    within the budget is refused with a conflict (each re-fetch succeeding),
    the run ends with the timeout error ErrWaitTimeout, after exactly two
    writes more than the poller's signals. *)
Theorem setPVCStatus_bounded c status ticks :
  (∀ s pvc,
     (updates (calls (setPVCStatus c pvc status ticks s).2) ≤ updates (calls s) + 6)%nat) ∧
  (∀ s pvc v,
     content s pvc = Some v →
     annotation v annStatus ≠ Some status →
     persistentConflict (ticks `min` 4 + 2) (ObjectMeta.Namespace v) (ObjectMeta.Name v)
       status v (world s) = true →
     ∃ newPVC s',
       setPVCStatus c pvc status ticks s = (Val (newPVC, Some ErrWaitTimeout), s') ∧
       updates (calls s') = updates (calls s) + (ticks `min` 4 + 2)).
Proof.
  split.
  - intros s pvc.
    destruct (setPVCStatus c pvc status ticks s) as [res s'] eqn:Hrun.
    apply setPVCStatus_frame in Hrun as [_ Hc]. simpl. lia.
  - intros s pvc v Hv Hne Hconf.
    destruct (setPVCStatus_begin c s pvc v status ticks Hv Hne)
      as (o & q & s1 & Hn & Hns & Hq & (Hw1 & Hc1 & Hg1) & ->).
    rewrite <- Hn, <- Hns, <- Hw1 in Hconf.
    replace (ticks `min` 4 + 2) with (S (S (ticks `min` 4))) in * by lia.
    apply persistentConflict_S in Hconf
      as (r & err & w1 & latest & w2 & Hup & Hcf & Hget & Hrest).
    destruct (attempt_refused o status s1 q None v _ _ _ _ _ Hq Hup Hcf Hget)
      as (q2 & x2 & s2 & Hrun & Hq2 & Hw2 & Hc2 & Hg2).
    rewrite <- Hw2 in Hrest.
    destruct (WaitFor_conflicts o status _ q2 x2 s2 latest Hq2 Hrest)
      as ([q3 newPVC] & s3 & Hwait & Hc3).
    unfold PollImmediate. unfold bind at 1 2. cbv beta. rewrite Hrun, poller_4.
    unfold bind. rewrite Hwait. exists newPVC, s3. split; [done|].
    rewrite Hc3, Hc2, Hc1, updates_app. change (updates [_; _]) with 1. lia.
Qed.

(** C4: setPVCStatus never changes the caller's claim.  On every path
    (already set, success, conflict and retry, error, timeout, panic) the
    object the caller's pointer refers to holds the same fields after the
    call, the reference to its annotation map among them, and that map holds
    the same entries. *)
Theorem setPVCStatus_keeps_caller_claim c s l status ticks :
  let s' := (setPVCStatus c (Some l) status ticks s).2 in
  objs s' !! l = objs s !! l ∧ content s' (Some l) = content s (Some l).
Proof.
  destruct (setPVCStatus c (Some l) status ticks s) as [res s'] eqn:Hrun. simpl.
  destruct (objs s !! l) as [o|] eqn:Ho.
  - apply setPVCStatus_frame in Hrun as [Hf _].
    destruct (Hf l o eq_refl Ho) as (Ho' & Hm & _).
    rewrite Ho', Ho. split; [done|].
    destruct (ObjectMeta.Annotations o) as [m|]; [|done].
    by rewrite (Hm m eq_refl).
  - unfold setPVCStatus, bind, load in Hrun. rewrite Ho in Hrun.
    injection Hrun as <- <-. by rewrite Ho.
Qed.

End Proofs.

(** * Further properties of the code *)

Section Further.
Context {K : Consts} {W : Type} {C : Cluster W}.
Implicit Types (s : State W) (p pvc : ptr) (l : loc) (v : Claim) (o : PVC).

(** ** The key-to-claim resolution *)

(** X1: pvcFromKey reads the index and nothing else: it always returns, with
    the state as it was, and it returns a claim exactly when the key is a
    string that the index finds, with no lookup error, as a claim object;
    the claim returned is that object and comes with no error. *)
Theorem pvcFromKey_claim_iff c k s :
  ∃ p err,
    pvcFromKey c k s = (Val (p, err), s) ∧
    (∀ l, p = Some l ↔
          ∃ keyString, k = KeyString keyString ∧
            GetByKey keyString (world s) = (ObjPVC (Some l), true, None)) ∧
    (is_Some p → err = None).
Proof.
  destruct k as [keyString|]; simpl.
  2:{ eexists _, _. split; [done|]. split.
      - intros l. split; [done|]. by intros (? & ? & _).
      - by intros [??]. }
  unfold bind, Indexer_GetByKey.
  destruct (GetByKey keyString (world s)) as [[obj ok] e] eqn:Hget.
  destruct ok; simpl.
  2:{ eexists _, _. split; [done|]. split.
      - intros l. split; [done|]. intros (? & [= <-] & Hg). congruence.
      - by intros [??]. }
  destruct e as [e|].
  { eexists _, _. split; [done|]. split.
    - intros l. split; [done|]. intros (? & [= <-] & Hg). congruence.
    - by intros [??]. }
  destruct obj as [|q|]; eexists _, _; (split; [done|]); split;
    try (by intros [??]); try done; intros l; split; try done.
  - intros (? & [= <-] & Hg). congruence.
  - intros ->. by exists keyString.
  - intros (? & [= <-] & Hg). congruence.
  - intros (? & [= <-] & Hg). congruence.
Qed.

(** X2: pvcFromKey returns an error exactly when the key is not a string, or
    the index finds the key but reports an error or holds an object that is
    not a claim; a key the index does not find is no error. *)
Theorem pvcFromKey_error_iff c k s :
  ∃ p err,
    pvcFromKey c k s = (Val (p, err), s) ∧
    (is_Some err ↔
       k = KeyOther ∨
       ∃ keyString obj e,
         k = KeyString keyString ∧
         GetByKey keyString (world s) = (obj, true, e) ∧
         (is_Some e ∨ ∀ q, obj ≠ ObjPVC q)) ∧
    (∀ keyString obj e,
       k = KeyString keyString →
       GetByKey keyString (world s) = (obj, true, Some e) →
       err = Some (Errorf ("pvcFromKey: Error getting key from cache: %q" +:+ LF)
                          [ArgS keyString])).
Proof.
  destruct k as [keyString|]; simpl.
  2:{ eexists _, _. split; [done|]. split; [|done]. split; [by left|by eexists]. }
  unfold bind, Indexer_GetByKey.
  destruct (GetByKey keyString (world s)) as [[obj ok] e] eqn:Hget.
  destruct ok; simpl.
  2:{ eexists _, _. split; [done|]. split.
      - split; [by intros [??]|]. intros [|(? & ? & ? & [= <-] & Hg & _)]; congruence.
      - intros ??? [= <-] Hg. congruence. }
  destruct e as [e|].
  { eexists _, _. split; [done|]. split.
    - split; [|by eexists]. intros _. right. exists keyString, obj, (Some e).
      split_and!; try done. left. by eexists.
    - by intros ??? [= <-] _. }
  destruct obj as [|q|]; eexists _, _; (split; [done|]);
    (split; [|intros ??? [= <-] Hg; congruence]).
  - split; [|by eexists]. intros _. right. exists keyString, ObjNil, None.
    split_and!; try done. by right.
  - split; [by intros [??]|].
    intros [|(? & ? & ? & [= <-] & Hg & [[??]|Hq])]; try done.
    + congruence.
    + rewrite Hget in Hg. injection Hg as <- <-. by destruct (Hq q).
  - split; [|by eexists]. intros _. right. exists keyString, ObjOther, None.
    split_and!; try done. by right.
Qed.

(** ** The remote calls of the Status Advancer, whatever the cluster answers *)

Lemma SetMetaDataAnnotation_calls s q k x (res : Outcome unit) s' :
  SetMetaDataAnnotation q k x s = (res, s') → calls s' = calls s.
Proof.
  unfold SetMetaDataAnnotation, bind, load.
  destruct q as [lq|]; [|by intros [= <- <-]].
  destruct (objs s !! lq) as [oq|]; [|by intros [= <- <-]].
  destruct (ObjectMeta.Annotations oq) as [m|].
  - unfold mapAssign. destruct (maps s !! m); by intros [= <- <-].
  - unfold make, store, mapAssign. simpl.
    destruct (objs s !! lq); [|by intros [= <- <-]]. simpl.
    rewrite lookup_insert_eq. by intros [= <- <-].
Qed.

Lemma Update_calls ns s q res s' :
  PersistentVolumeClaims_Update ns q s = (res, s') →
  (res = Panic ∧ calls s' = calls s) ∨
  ∃ v q' err, res = Val (q', err) ∧
    calls s' = (calls s ++ [(CallClaimsUpdate ns v, err)])%list.
Proof.
  unfold PersistentVolumeClaims_Update. unfold bind at 1. rewrite encode_content.
  destruct (content s q) as [v|]; [|intros [= <- <-]; by left].
  destruct (remote_frame s (CallClaimsUpdate ns v) (ClaimsUpdate ns v))
    as (r & err & s1 & Hrem & _ & _ & Hc1).
  unfold bind at 1. rewrite Hrem. unfold bind.
  destruct (decode_content r s1) as (q' & s2 & -> & (_ & Hc2 & _) & _).
  intros [= <- <-]. right. exists v, q', err. by rewrite Hc2, Hc1.
Qed.

Lemma Get_calls ns name s res s' :
  PersistentVolumeClaims_Get ns name s = (res, s') →
  ∃ q' err, res = Val (q', err) ∧
    calls s' = (calls s ++ [(CallClaimsGet ns name, err)])%list.
Proof.
  unfold PersistentVolumeClaims_Get.
  destruct (remote_frame s (CallClaimsGet ns name) (ClaimsGet ns name))
    as (r & err & s1 & Hrem & _ & _ & Hc1).
  unfold bind at 1. rewrite Hrem. unfold bind.
  destruct (decode_content r s1) as (q' & s2 & -> & (_ & Hc2 & _) & _).
  intros [= <- <-]. exists q', err. by rewrite Hc2, Hc1.
Qed.

(** One attempt: what it calls and how it answers. *)
Lemma attempt_cases o status s q x res s' :
  setPVCStatus_attempt o status (q, x) s = (res, s') →
  let ns := ObjectMeta.Namespace o in
  let name := ObjectMeta.Name o in
  (res = Panic ∧ calls s' = calls s) ∨
  (∃ v qn, res = Val (qn, (true, None)) ∧
     calls s' = (calls s ++ [(CallClaimsUpdate ns v, None)])%list) ∨
  (∃ v e qn, IsConflict (Some e) = false ∧
     res = Val (qn, (true, Some (statusError "updating" ns name e))) ∧
     calls s' = (calls s ++ [(CallClaimsUpdate ns v, Some e)])%list) ∨
  (∃ v e qn, IsConflict (Some e) = true ∧
     res = Val (qn, (false, None)) ∧
     calls s' = (calls s ++ [(CallClaimsUpdate ns v, Some e);
                             (CallClaimsGet ns name, None)])%list) ∨
  (∃ v e e' qn, IsConflict (Some e) = true ∧
     res = Val (qn, (true, Some (statusError "getting" ns name e'))) ∧
     calls s' = (calls s ++ [(CallClaimsUpdate ns v, Some e);
                             (CallClaimsGet ns name, Some e')])%list).
Proof.
  intros Hrun ns name. revert Hrun. unfold setPVCStatus_attempt. unfold bind at 1.
  destruct (SetMetaDataAnnotation q annStatus status s) as [r1 s1] eqn:Hset.
  apply SetMetaDataAnnotation_calls in Hset as Hc1.
  destruct r1 as [[]|]; [|intros [= <- <-]; by left].
  unfold bind at 1.
  destruct (PersistentVolumeClaims_Update (ObjectMeta.Namespace o) q s1) as [r2 s2] eqn:Hupd.
  apply Update_calls in Hupd as [[-> Hc2]|(v & q' & err & -> & Hc2)].
  { intros [= <- <-]. left. by rewrite Hc2. }
  rewrite Hc1 in Hc2.
  destruct err as [e|].
  2:{ intros [= <- <-]. right. left. by eexists _, _. }
  destruct (IsConflict (Some e)) eqn:Hconf.
  2:{ intros [= <- <-]. right. right. left. by eexists _, _, _. }
  unfold bind.
  destruct (PersistentVolumeClaims_Get (ObjectMeta.Namespace o) (ObjectMeta.Name o) s2)
    as [r3 s3] eqn:Hget.
  apply Get_calls in Hget as (q3 & gerr & -> & Hc3).
  rewrite Hc2, <- app_assoc in Hc3. simpl in Hc3.
  destruct gerr as [e'|]; intros [= <- <-]; right; right; right.
  - right. by eexists _, _, _, _.
  - left. by eexists _, _, _.
Qed.

Lemma WaitFor_run o status n :
  ∀ q x s res s',
    WaitFor n (setPVCStatus_attempt o status) (q, x) s = (res, s') →
    ∃ tr, calls s' = (calls s ++ tr)%list ∧
      statusRun (ObjectMeta.Namespace o) (ObjectMeta.Name o) tr (errOf res).
Proof.
  induction n as [|n IH]; intros q x s res s'; rewrite WaitFor_unfold; unfold bind;
    destruct (setPVCStatus_attempt o status (q, x) s) as [r1 s1] eqn:Hat;
    apply attempt_cases in Hat
      as [[-> Hc]|[(v & qn & -> & Hc)|[(v & e & qn & Hcf & -> & Hc)
         |[(v & e & [q' x'] & Hcf & -> & Hc)|(v & e & e' & qn & Hcf & -> & Hc)]]]];
    unfold ret.
  1,6: intros [= <- <-]; exists []; (split; [by rewrite app_nil_r|constructor]).
  1,5: intros [= <- <-]; eexists; (split; [exact Hc|constructor]).
  1,4: intros [= <- <-]; eexists; (split; [exact Hc|by constructor]).
  2,4: intros [= <- <-]; eexists; (split; [exact Hc|by constructor]).
  - intros [= <- <-]. eexists. split; [exact Hc|]. eapply run_retry; [done|constructor].
  - intros Hrec. apply IH in Hrec as (tr & Hc' & Hrun).
    eexists. split; [|by eapply run_retry].
    rewrite Hc', Hc, <- app_assoc. done.
Qed.

Lemma setPVCStatus_no_claim c s pvc status ticks :
  content s pvc = None → setPVCStatus c pvc status ticks s = (Panic, s).
Proof.
  unfold content, setPVCStatus, bind, load. destruct pvc as [l|]; [|done].
  destruct (objs s !! l) as [o|]; [|done].
  unfold mapIndex. destruct (ObjectMeta.Annotations o) as [m|]; [|done].
  unfold bind, readMap. by destruct (maps s !! m).
Qed.

(** A whole run of setPVCStatus: no call at all when there is no claim or
    the status is already set, and else the calls of the retry loop. *)
Lemma setPVCStatus_run c s pvc status ticks res s' :
  setPVCStatus c pvc status ticks s = (res, s') →
  (calls s' = calls s ∧
   (res = Panic ∧ content s pvc = None ∨
    res = Val (pvc, None) ∧ hasStatus s pvc status = true)) ∨
  (∃ v tr,
     content s pvc = Some v ∧ hasStatus s pvc status = false ∧
     calls s' = (calls s ++ tr)%list ∧
     statusRun (ObjectMeta.Namespace v) (ObjectMeta.Name v) tr (errOf res)).
Proof.
  unfold hasStatus. destruct (content s pvc) as [v|] eqn:Hv.
  2:{ rewrite setPVCStatus_no_claim by done. intros [= <- <-]. left. split; [done|by left]. }
  case_bool_decide as Hst.
  { destruct (load_content _ _ _ Hv) as (o & Hl & _ & _ & Hix).
    unfold setPVCStatus, bind. rewrite Hl, (Hix annStatus), Hst. simpl.
    rewrite bool_decide_eq_true_2 by done. intros [= <- <-]. left. split; [done|by right]. }
  destruct (setPVCStatus_begin c s pvc v status ticks Hv Hst)
    as (o & q & s1 & Hn & Hns & Hq & (Hw1 & Hc1 & Hg1) & ->).
  intros Hrun. right. exists v, (drop (length (calls s)) (calls s')).
  split; [done|]. split; [done|]. rewrite <- Hn, <- Hns.
  cut (∃ tr, calls s' = (calls s ++ tr)%list ∧
         statusRun (ObjectMeta.Namespace o) (ObjectMeta.Name o) tr (errOf res)).
  { intros (tr & Hc & Hrun'). rewrite Hc, drop_app_length. done. }
  revert Hrun. unfold PollImmediate. unfold bind at 1 2. cbv beta.
  destruct (setPVCStatus_attempt o status _ s1) as [r2 s2] eqn:Hat.
  apply attempt_cases in Hat
    as [[-> Hc]|[(v' & qn & -> & Hc)|[(v' & e & qn & Hcf & -> & Hc)
       |[(v' & e & [q' x'] & Hcf & -> & Hc)|(v' & e & e' & qn & Hcf & -> & Hc)]]]];
    rewrite Hc1 in Hc; unfold ret.
  - intros [= <- <-]. exists []. split; [by rewrite app_nil_r|constructor].
  - destruct qn. intros [= <- <-]. eexists. split; [exact Hc|constructor].
  - destruct qn. intros [= <- <-]. eexists. split; [exact Hc|by constructor].
  - unfold bind.
    destruct (WaitFor _ (setPVCStatus_attempt o status) (q', x') s2) as [r3 s3] eqn:Hwait.
    apply WaitFor_run in Hwait as (tr & Hc3 & Hrun3).
    intros Hres. exists ((CallClaimsUpdate (ObjectMeta.Namespace o) v', Some e)
                         :: (CallClaimsGet (ObjectMeta.Namespace o) (ObjectMeta.Name o), None)
                         :: tr).
    assert (s' = s3 ∧ errOf res = errOf r3) as [-> ->].
    { destruct r3 as [[[??]?]|]; injection Hres as <- <-; done. }
    split; [|by constructor]. rewrite Hc3, Hc, <- app_assoc. done.
  - destruct qn. intros [= <- <-]. eexists. split; [exact Hc|by constructor].
Qed.

Lemma accepted_app tr tr' : accepted (tr ++ tr') = accepted tr + accepted tr'.
Proof. unfold accepted. by rewrite filter_app, length_app. Qed.

Lemma statusRun_accepted ns name tr res :
  statusRun ns name tr res →
  accepted tr = match res with Val None => 1 | _ => 0 end.
Proof. induction 1; try done. Qed.

Lemma statusRun_claim_calls ns name tr res :
  statusRun ns name tr res → Forall (λ ev, isClaimCall ns name ev = true) tr.
Proof.
  induction 1; repeat constructor; simpl; try done;
    rewrite ?andb_true_iff, ?bool_decide_eq_true; done.
Qed.

Lemma statusRun_error ns name tr e :
  statusRun ns name tr (Val (Some e)) →
  e = ErrWaitTimeout ∨
  ∃ cause,
    (e = statusError "updating" ns name cause ∧
     ∃ v, last tr = Some (CallClaimsUpdate ns v, Some cause)) ∨
    (e = statusError "getting" ns name cause ∧
     last tr = Some (CallClaimsGet ns name, Some cause)).
Proof.
  remember (Val (Some e)) as res eqn:Hres. induction 1; try done.
  - left. congruence.
  - injection Hres as <-. right. eexists. left. split; [done|]. by eexists.
  - injection Hres as <-. right. eexists. right. done.
  - destruct (IHstatusRun Hres) as [->|(cause & Hc)]; [by left|].
    right. exists cause.
    destruct Hc as [(-> & v' & Hl)|(-> & Hl)]; [left|right]; (split; [done|]).
    + exists v'. destruct tr; [done|]. done.
    + destruct tr; [done|]. done.
Qed.

(** An attempt whose write fails with an error that is no conflict. *)
Lemma attempt_update_failed o status s q x v r e w' :
  content s q = Some v →
  ClaimsUpdate (ObjectMeta.Namespace o) (setAnnotation v annStatus status) (world s)
    = ((r, Some e), w') →
  IsConflict (Some e) = false →
  ∃ qn s',
    setPVCStatus_attempt o status (q, x) s
      = (Val (qn, (true, Some (statusError "updating" (ObjectMeta.Namespace o)
                                 (ObjectMeta.Name o) e))), s') ∧
    world s' = w' ∧
    calls s' = (calls s ++ [(CallClaimsUpdate (ObjectMeta.Namespace o)
                               (setAnnotation v annStatus status), Some e)])%list.
Proof.
  intros Hq Hup Hconf. unfold setPVCStatus_attempt.
  destruct (SetMetaDataAnnotation_content s q v annStatus status Hq)
    as (s1 & Hset & Hq1 & Hw1 & Hc1 & Hg1).
  unfold bind at 1. rewrite Hset. rewrite <- Hw1 in Hup.
  destruct (Update_run _ _ _ _ _ _ _ Hq1 Hup) as (q' & s2 & Hrun & Hw2 & Hc2 & _).
  unfold bind. rewrite Hrun, Hconf. eexists _, _. split; [done|].
  by rewrite Hc2, Hc1.
Qed.

(** An attempt whose write is refused with a conflict and whose re-fetch
    fails. *)
Lemma attempt_get_failed o status s q x v r e w1 r' e' w2 :
  content s q = Some v →
  ClaimsUpdate (ObjectMeta.Namespace o) (setAnnotation v annStatus status) (world s)
    = ((r, Some e), w1) →
  IsConflict (Some e) = true →
  ClaimsGet (ObjectMeta.Namespace o) (ObjectMeta.Name o) w1 = ((r', Some e'), w2) →
  ∃ qn s',
    setPVCStatus_attempt o status (q, x) s
      = (Val (qn, (true, Some (statusError "getting" (ObjectMeta.Namespace o)
                                 (ObjectMeta.Name o) e'))), s') ∧
    world s' = w2 ∧
    calls s' = (calls s ++
                  [(CallClaimsUpdate (ObjectMeta.Namespace o)
                      (setAnnotation v annStatus status), Some e);
                   (CallClaimsGet (ObjectMeta.Namespace o) (ObjectMeta.Name o),
                    Some e')])%list.
Proof.
  intros Hq Hup Hconf Hget. unfold setPVCStatus_attempt.
  destruct (SetMetaDataAnnotation_content s q v annStatus status Hq)
    as (s1 & Hset & Hq1 & Hw1 & Hc1 & Hg1).
  unfold bind at 1. rewrite Hset. rewrite <- Hw1 in Hup.
  destruct (Update_run _ _ _ _ _ _ _ Hq1 Hup) as (q' & s2 & Hrun & Hw2 & Hc2 & _).
  unfold bind at 1. rewrite Hrun, Hconf. rewrite <- Hw2 in Hget.
  destruct (Get_run _ _ _ _ _ _ Hget) as (q2 & s3 & Hrun3 & Hw3 & Hc3 & _).
  unfold bind. rewrite Hrun3. eexists _, _. split; [done|].
  rewrite Hc3, Hc2, Hc1, <- app_assoc. done.
Qed.

(** The first call of an attempt is the write of the clone with the status
    set. *)
Lemma attempt_first_call o status s q x v res s' :
  content s q = Some v →
  setPVCStatus_attempt o status (q, x) s = (res, s') →
  ∃ err rest,
    calls s' = (calls s ++ (CallClaimsUpdate (ObjectMeta.Namespace o)
                              (setAnnotation v annStatus status), err) :: rest)%list.
Proof.
  intros Hq. unfold setPVCStatus_attempt.
  destruct (SetMetaDataAnnotation_content s q v annStatus status Hq)
    as (s1 & Hset & Hq1 & Hw1 & Hc1 & Hg1).
  unfold bind at 1. rewrite Hset.
  destruct (ClaimsUpdate (ObjectMeta.Namespace o) (setAnnotation v annStatus status) (world s1))
    as [[r err] w'] eqn:Hup.
  destruct (Update_run _ _ _ _ _ _ _ Hq1 Hup) as (q' & s2 & Hrun & Hw2 & Hc2 & _).
  unfold bind at 1. rewrite Hrun. rewrite Hc1 in Hc2.
  destruct err as [e|]; [|intros [= <- <-]; eexists _, []; exact Hc2].
  destruct (IsConflict (Some e)); [|intros [= <- <-]; eexists _, []; exact Hc2].
  unfold bind.
  destruct (PersistentVolumeClaims_Get (ObjectMeta.Namespace o) (ObjectMeta.Name o) s2)
    as [r3 s3] eqn:Hget.
  apply Get_calls in Hget as (q3 & gerr & -> & Hc3).
  rewrite Hc2, <- app_assoc in Hc3.
  destruct gerr; intros [= <- <-]; eexists _, [_]; exact Hc3.
Qed.

(** The poll only adds calls to those of its first attempt. *)
Lemma PollImmediate_after_first o status i t ticks q x s res s' :
  PollImmediate i t ticks (setPVCStatus_attempt o status) (q, x) s = (res, s') →
  ∃ r2 s2 tr,
    setPVCStatus_attempt o status (q, x) s = (r2, s2) ∧
    calls s' = (calls s2 ++ tr)%list.
Proof.
  unfold PollImmediate, bind.
  destruct (setPVCStatus_attempt o status (q, x) s) as [r2 s2] eqn:Hat.
  intros Hrun. exists r2, s2.
  destruct r2 as [[[q' x'] [fin [e|]]]|]; [| destruct fin |];
    try (injection Hrun as <- <-; exists []; by rewrite app_nil_r).
  apply WaitFor_run in Hrun as (tr & Hc & _). by exists tr.
Qed.

(** ** The Status Advancer: failures, writes and what is written *)

(** X3: When the first write of setPVCStatus fails with an error that is not a
    conflict, the call stops there: it returns the error built for the verb
    updating, which carries the claim's namespace and name and the cause,
    and the write is its only remote call (no re-fetch, no retry). *)
Theorem setPVCStatus_update_error c s pvc v status ticks r e w' :
  content s pvc = Some v →
  annotation v annStatus ≠ Some status →
  ClaimsUpdate (ObjectMeta.Namespace v) (setAnnotation v annStatus status) (world s)
    = ((r, Some e), w') →
  IsConflict (Some e) = false →
  ∃ newPVC s',
    setPVCStatus c pvc status ticks s
      = (Val (newPVC, Some (statusError "updating" (ObjectMeta.Namespace v)
                              (ObjectMeta.Name v) e)), s') ∧
    world s' = w' ∧
    calls s' = (calls s ++ [(CallClaimsUpdate (ObjectMeta.Namespace v)
                               (setAnnotation v annStatus status), Some e)])%list.
Proof.
  intros Hv Hne Hup Hconf.
  destruct (setPVCStatus_begin c s pvc v status ticks Hv Hne)
    as (o & q & s1 & Hn & Hns & Hq & (Hw1 & Hc1 & Hg1) & ->).
  rewrite <- Hns, <- Hw1 in Hup.
  destruct (attempt_update_failed o status s1 q None v _ _ _ Hq Hup Hconf)
    as ([q' newPVC] & s2 & Hrun & Hw2 & Hc2).
  unfold PollImmediate, bind. cbv beta. rewrite Hrun.
  exists newPVC, s2. rewrite <- Hns, <- Hn, Hc2, Hc1. done.
Qed.

(** X4: When the first write of setPVCStatus is refused with a conflict and the
    re-fetch of the claim fails, the call stops there: it returns the error
    built for the verb getting, which carries the cause of the failed
    re-fetch (not the conflict), after exactly the write and the re-fetch. *)
Theorem setPVCStatus_get_error c s pvc v status ticks r e w1 r' e' w2 :
  content s pvc = Some v →
  annotation v annStatus ≠ Some status →
  ClaimsUpdate (ObjectMeta.Namespace v) (setAnnotation v annStatus status) (world s)
    = ((r, Some e), w1) →
  IsConflict (Some e) = true →
  ClaimsGet (ObjectMeta.Namespace v) (ObjectMeta.Name v) w1 = ((r', Some e'), w2) →
  ∃ newPVC s',
    setPVCStatus c pvc status ticks s
      = (Val (newPVC, Some (statusError "getting" (ObjectMeta.Namespace v)
                              (ObjectMeta.Name v) e')), s') ∧
    world s' = w2 ∧
    calls s' =
      (calls s ++
         [(CallClaimsUpdate (ObjectMeta.Namespace v) (setAnnotation v annStatus status),
           Some e);
          (CallClaimsGet (ObjectMeta.Namespace v) (ObjectMeta.Name v), Some e')])%list.
Proof.
  intros Hv Hne Hup Hconf Hget.
  destruct (setPVCStatus_begin c s pvc v status ticks Hv Hne)
    as (o & q & s1 & Hn & Hns & Hq & (Hw1 & Hc1 & Hg1) & ->).
  rewrite <- Hns in Hup, Hget. rewrite <- Hn in Hget. rewrite <- Hw1 in Hup.
  destruct (attempt_get_failed o status s1 q None v _ _ _ _ _ _ Hq Hup Hconf Hget)
    as ([q' newPVC] & s2 & Hrun & Hw2 & Hc2).
  unfold PollImmediate, bind. cbv beta. rewrite Hrun.
  exists newPVC, s2. rewrite <- Hns, <- Hn, Hc2, Hc1. done.
Qed.

(** X5: For a claim in memory whose status differs, the first remote call of
    setPVCStatus, whatever the cluster answers, is a write in the claim's
    namespace of a claim that has the caller's name, namespace and resource
    version, the target status in its status annotation, and every other
    annotation of the caller's claim unchanged. *)
Theorem setPVCStatus_first_write c s pvc v status ticks :
  content s pvc = Some v →
  annotation v annStatus ≠ Some status →
  ∃ sent err rest,
    calls (setPVCStatus c pvc status ticks s).2
      = (calls s ++ (CallClaimsUpdate (ObjectMeta.Namespace v) sent, err) :: rest)%list ∧
    ObjectMeta.Name sent = ObjectMeta.Name v ∧
    ObjectMeta.Namespace sent = ObjectMeta.Namespace v ∧
    ObjectMeta.ResourceVersion sent = ObjectMeta.ResourceVersion v ∧
    annotation sent annStatus = Some status ∧
    ∀ k, k ≠ annStatus → annotation sent k = annotation v k.
Proof.
  intros Hv Hne.
  destruct (setPVCStatus_begin c s pvc v status ticks Hv Hne)
    as (o & q & s1 & Hn & Hns & Hq & (Hw1 & Hc1 & Hg1) & ->).
  exists (setAnnotation v annStatus status).
  assert (∃ err rest,
            calls (('(_, newPVC, err) <- PollImmediate (Second * 1)%Z (Second * 4)%Z ticks
                                           (setPVCStatus_attempt o status) (q, None : ptr);
                    ret (newPVC, err)) s1).2
            = (calls s ++ (CallClaimsUpdate (ObjectMeta.Namespace v)
                             (setAnnotation v annStatus status), err) :: rest)%list)
    as (err & rest & Hcalls).
  { unfold bind at 1.
    destruct (PollImmediate _ _ ticks (setPVCStatus_attempt o status) _ s1)
      as [res s'] eqn:Hpoll.
    apply PollImmediate_after_first in Hpoll as (r2 & s2 & tr & Hat & Hc).
    apply (attempt_first_call _ _ _ _ _ v) in Hat as (err & rest & Hc2); [|done].
    exists err, (rest ++ tr)%list.
    assert (calls s' = (calls s ++ (CallClaimsUpdate (ObjectMeta.Namespace v)
                             (setAnnotation v annStatus status), err) :: rest ++ tr)%list)
      as <-.
    { rewrite Hc, Hc2, Hc1, Hns, <- app_assoc. done. }
    by destruct res as [[[??]?]|]. }
  exists err, rest. split; [exact Hcalls|]. split_and!; try done.
  - unfold annotation, setAnnotation. simpl. by rewrite lookup_insert_eq.
  - intros k Hk. unfold annotation, setAnnotation. simpl.
    rewrite lookup_insert_ne by done. by destruct (ObjectMeta.Annotations v).
Qed.

(** X6: The conditional writes that the cluster answered with a nil error
    during any run of setPVCStatus: exactly one when the call returns no
    error for a claim that did not carry the status yet, none when it
    returns no error for a claim that did, and none whenever it returns an
    error, times out or panics.  (This counts the answers in the trace of
    remote calls; it says nothing of what a cluster does with a write it
    answers with an error.) *)
Theorem setPVCStatus_accepted_writes c s pvc status ticks :
  accepted (calls (setPVCStatus c pvc status ticks s).2) =
  accepted (calls s) +
  match (setPVCStatus c pvc status ticks s).1 with
  | Val (_, None) => if hasStatus s pvc status then 0 else 1
  | _ => 0
  end.
Proof.
  destruct (setPVCStatus c pvc status ticks s) as [res s'] eqn:Hrun. simpl.
  apply setPVCStatus_run in Hrun
    as [[Hc [[-> _]|[-> Hst]]]|(v & tr & Hv & Hst & Hc & Hrun)].
  - rewrite Hc. lia.
  - rewrite Hc, Hst. lia.
  - rewrite Hc, accepted_app, Hst, (statusRun_accepted _ _ _ _ Hrun).
    by destruct res as [[? [?|]]|].
Qed.

(** X7: Every remote call of setPVCStatus on a claim in memory is a write of a
    claim in that claim's namespace or a read of that claim by its
    namespace and name: it never looks up a secret and never creates a pod,
    whatever the cluster answers. *)
Theorem setPVCStatus_only_claim_calls c s l o status ticks :
  objs s !! l = Some o →
  ∃ tr,
    calls (setPVCStatus c (Some l) status ticks s).2 = (calls s ++ tr)%list ∧
    Forall (λ ev, isClaimCall (ObjectMeta.Namespace o) (ObjectMeta.Name o) ev = true) tr.
Proof.
  intros Ho.
  destruct (setPVCStatus c (Some l) status ticks s) as [res s'] eqn:Hrun. simpl.
  apply setPVCStatus_run in Hrun as [[Hc _]|(v & tr & Hv & Hst & Hc & Hrun)].
  - exists []. by rewrite app_nil_r.
  - exists tr. split; [done|].
    apply content_Some in Hv as (l' & o' & [= <-] & Ho' & Hveq & _).
    rewrite Ho in Ho'. injection Ho' as <-.
    rewrite Hveq in Hrun. by eapply statusRun_claim_calls.
Qed.

(** X8: Whenever setPVCStatus on a claim in memory returns an error, the error
    is the poll's timeout, or the error built for the verb updating around
    the error of the write that was the last remote call, or the error built
    for the verb getting around the error of the re-fetch that was the last
    remote call. *)
Theorem setPVCStatus_error_shape c s l o status ticks newPVC e :
  objs s !! l = Some o →
  (setPVCStatus c (Some l) status ticks s).1 = Val (newPVC, Some e) →
  e = ErrWaitTimeout ∨
  ∃ cause,
    (e = statusError "updating" (ObjectMeta.Namespace o) (ObjectMeta.Name o) cause ∧
     ∃ sent, last (calls (setPVCStatus c (Some l) status ticks s).2)
             = Some (CallClaimsUpdate (ObjectMeta.Namespace o) sent, Some cause)) ∨
    (e = statusError "getting" (ObjectMeta.Namespace o) (ObjectMeta.Name o) cause ∧
     last (calls (setPVCStatus c (Some l) status ticks s).2)
       = Some (CallClaimsGet (ObjectMeta.Namespace o) (ObjectMeta.Name o), Some cause)).
Proof.
  intros Ho.
  destruct (setPVCStatus c (Some l) status ticks s) as [res s'] eqn:Hrun. simpl.
  intros ->.
  apply setPVCStatus_run in Hrun
    as [[_ [[[=] _]|[[=] _]]]|(v & tr & Hv & Hst & Hc & Hrun)].
  apply content_Some in Hv as (l' & o' & [= <-] & Ho' & Hveq & _).
  rewrite Ho in Ho'. injection Ho' as <-. rewrite Hveq in Hrun. simpl in Hrun.
  apply statusRun_error in Hrun as [->|(cause & [(-> & sent & Hl)|(-> & Hl)])];
    [by left|right; exists cause..].
  - left. split; [done|]. exists sent. by rewrite Hc, last_app, Hl.
  - right. split; [done|]. by rewrite Hc, last_app, Hl.
Qed.

(** ** The worker manifest and its submission *)

Lemma makeImporterPodSpec_run c ep secret s l o :
  objs s !! l = Some o →
  ∃ pod,
    makeImporterPodSpec c ep secret (Some l) s = (Val pod, s) ∧
    ObjectMeta.Name (Pod.ObjectMeta pod) = IMPORTER_PODNAME +:+ "-" +:+ ObjectMeta.Name o.
Proof.
  intros Ho. unfold makeImporterPodSpec, bind, load. rewrite Ho. simpl. by eexists.
Qed.

(** X10: The pod built for a claim in memory has exactly one volume, bound
    read-write to the claim by the claim's own name, and its one container
    mounts exactly that volume, by the volume's name, at the importer's data
    directory; the pod is never restarted.  Building it leaves the state as
    it was. *)
Theorem makeImporterPodSpec_volume c ep secret s l o :
  objs s !! l = Some o →
  ∃ pod c0 vol mount,
    makeImporterPodSpec c ep secret (Some l) s = (Val pod, s) ∧
    PodSpec.Volumes (Pod.Spec pod) = [vol] ∧
    Volume.PersistentVolumeClaim vol =
      Some (PersistentVolumeClaimVolumeSource.Build (ObjectMeta.Name o) false) ∧
    PodSpec.Containers (Pod.Spec pod) = [c0] ∧
    Container.VolumeMounts c0 = [mount] ∧
    VolumeMount.Name mount = Volume.Name vol ∧
    VolumeMount.MountPath mount = IMPORTER_DATA_DIR ∧
    PodSpec.RestartPolicy (Pod.Spec pod) = RestartPolicyNever.
Proof.
  intros Ho. unfold makeImporterPodSpec, bind, load. rewrite Ho. simpl.
  by eexists _, _, _, _.
Qed.

(** X11: The pods built for two claims in memory, whatever the endpoints, the
    credential names, the image tags and the states, have the same name
    exactly when the claims have the same name: the pod name is unique per
    claim name. *)
Theorem makeImporterPodSpec_name_injective c1 c2 ep1 ep2 secret1 secret2
    (s1 s2 : State W) l1 l2 o1 o2 :
  objs s1 !! l1 = Some o1 →
  objs s2 !! l2 = Some o2 →
  ∃ pod1 pod2,
    makeImporterPodSpec c1 ep1 secret1 (Some l1) s1 = (Val pod1, s1) ∧
    makeImporterPodSpec c2 ep2 secret2 (Some l2) s2 = (Val pod2, s2) ∧
    (ObjectMeta.Name (Pod.ObjectMeta pod1) = ObjectMeta.Name (Pod.ObjectMeta pod2)
     ↔ ObjectMeta.Name o1 = ObjectMeta.Name o2).
Proof.
  intros Ho1 Ho2.
  destruct (makeImporterPodSpec_run c1 ep1 secret1 s1 l1 o1 Ho1) as (pod1 & Hrun1 & Hn1).
  destruct (makeImporterPodSpec_run c2 ep2 secret2 s2 l2 o2 Ho2) as (pod2 & Hrun2 & Hn2).
  exists pod1, pod2. split_and!; try done. rewrite Hn1, Hn2. split.
  - intros Heq. apply String.app_inj in Heq. by apply String.app_inj in Heq.
  - by intros ->.
Qed.

(** X12: createImporterPod for a claim in memory submits the pod that
    makeImporterPodSpec builds, in the claim's namespace, as its one remote
    call.  When the submission fails it returns no pod and an error carrying
    the cause, and logs nothing; when it succeeds it returns the pod the
    cluster answered with, and no error, and logs one line; an answer with
    neither a pod nor an error makes it panic, on the nil pod it logs. *)
Theorem createImporterPod_submits c ep secretName s l o r err w' :
  objs s !! l = Some o →
  (∀ pod, makeImporterPodSpec c ep secretName (Some l) s = (Val pod, s) →
          PodsCreate (ObjectMeta.Namespace o) pod (world s) = ((r, err), w')) →
  ∃ pod res s',
    makeImporterPodSpec c ep secretName (Some l) s = (Val pod, s) ∧
    createImporterPod c ep secretName (Some l) s = (res, s') ∧
    objs s' = objs s ∧ maps s' = maps s ∧ world s' = w' ∧
    calls s' = (calls s ++ [(CallPodsCreate (ObjectMeta.Namespace o) pod, err)])%list ∧
    (∀ e, err = Some e →
       res = Val (None, Some (Errorf ("createImporterPod: Create failed: %v" +:+ LF) [ArgE e])) ∧
       glog s' = glog s) ∧
    (∀ created, err = None → r = Some created →
       res = Val (Some created, None) ∧
       ∃ line, glog s' = (glog s ++ [line])%list) ∧
    (err = None → r = None → res = Panic).
Proof.
  intros Ho Hcreate.
  destruct (makeImporterPodSpec_run c ep secretName s l o Ho) as (pod & Hrun & _).
  specialize (Hcreate pod Hrun). exists pod.
  unfold createImporterPod. unfold bind at 1. unfold load at 1. rewrite Ho.
  unfold bind at 1. rewrite Hrun.
  unfold bind, Pods_Create, remote. rewrite Hcreate.
  destruct err as [e|]; [|destruct r as [created|]]; eexists _, _;
    (split; [done|]); (split; [done|]); simpl; split_and!; try done.
  - by intros ? [= <-].
  - intros ? _ [= <-]. split; [done|]. by eexists.
Qed.

(** ** Credential resolution never writes *)

(** X13: Whatever the state and the pointer, getSecretName leaves the claims and
    the annotation maps in memory as they were, and makes no remote call or
    exactly one, a lookup of a secret. *)
Theorem getSecretName_reads_only c s pvc :
  objs (getSecretName c pvc s).2 = objs s ∧
  maps (getSecretName c pvc s).2 = maps s ∧
  (calls (getSecretName c pvc s).2 = calls s ∨
   ∃ ns name err,
     calls (getSecretName c pvc s).2 = (calls s ++ [(CallSecretsGet ns name, err)])%list).
Proof.
  destruct (getSecretName c pvc s) as [res s'] eqn:Hrun. simpl. revert Hrun.
  unfold getSecretName. unfold bind at 1.
  destruct (load pvc s) as [ro s0] eqn:Hl. apply load_run in Hl as [-> _].
  destruct ro as [o|]; [|intros [= <- <-]; by auto].
  unfold bind at 1.
  destruct (mapIndex (ObjectMeta.Annotations o) annSecret s) as [rx s0] eqn:Hix.
  apply mapIndex_run in Hix as [-> _].
  destruct rx as [[name found]|]; [|intros [= <- <-]; by auto].
  destruct (negb found || bool_decide (name = "")); [intros [= <- <-]; by auto|].
  unfold bind, glog_Infof, glog_Info, Secrets_Get, remote. simpl.
  destruct (SecretsGet (ObjectMeta.Namespace o) name (world s)) as [[r err] w'].
  destruct (IsNotFound err); simpl; [intros [= <- <-]; simpl; by eauto 10|].
  destruct err; intros [= <- <-]; simpl; eauto 10.
Qed.

(** ** The timeout of the Status Advancer *)

Lemma WaitFor_timeout o status n :
  ∀ q x s r s',
    WaitFor n (setPVCStatus_attempt o status) (q, x) s
      = (Val (r, Some ErrWaitTimeout), s') →
    updates (calls s') = updates (calls s) + S n ∧
    accepted (calls s') = accepted (calls s).
Proof.
  induction n as [|n IH]; intros q x s r s'; rewrite WaitFor_unfold; unfold bind;
    destruct (setPVCStatus_attempt o status (q, x) s) as [r1 s1] eqn:Hat;
    apply attempt_cases in Hat
      as [[-> Hc]|[(v & qn & -> & Hc)|[(v & e & qn & Hcf & -> & Hc)
         |[(v & e & [q' x'] & Hcf & -> & Hc)|(v & e & e' & qn & Hcf & -> & Hc)]]]];
    unfold ret; try (by intros [=]).
  - intros [= <- <-]. rewrite Hc, updates_app, accepted_app. done.
  - intros Hrec. apply IH in Hrec as [Hu Ha].
    rewrite Hu, Ha, Hc, updates_app, accepted_app.
    change (updates [_; _]) with 1. change (accepted [_; _]) with 0. lia.
Qed.

(** X9: setPVCStatus returns the timeout error only when the whole budget went
    into refused writes: the run made exactly two writes more than the
    poller's signals, at most four, and the cluster accepted none of them. *)
Theorem setPVCStatus_timeout_budget c s pvc status ticks newPVC :
  (setPVCStatus c pvc status ticks s).1 = Val (newPVC, Some ErrWaitTimeout) →
  updates (calls (setPVCStatus c pvc status ticks s).2)
    = updates (calls s) + (ticks `min` 4 + 2) ∧
  accepted (calls (setPVCStatus c pvc status ticks s).2) = accepted (calls s).
Proof.
  destruct (setPVCStatus c pvc status ticks s) as [res s'] eqn:Hrun. simpl.
  intros ->. revert Hrun.
  destruct (content s pvc) as [v|] eqn:Hv.
  2:{ by rewrite setPVCStatus_no_claim. }
  destruct (decide (annotation v annStatus = Some status)) as [Hst|Hne].
  { destruct (load_content _ _ _ Hv) as (o & Hl & _ & _ & Hix).
    unfold setPVCStatus, bind. rewrite Hl, (Hix annStatus), Hst. simpl.
    by rewrite bool_decide_eq_true_2. }
  destruct (setPVCStatus_begin c s pvc v status ticks Hv Hne)
    as (o & q & s1 & Hn & Hns & Hq & (Hw1 & Hc1 & Hg1) & ->).
  unfold PollImmediate. unfold bind at 1 2. cbv beta.
  destruct (setPVCStatus_attempt o status _ s1) as [r2 s2] eqn:Hat.
  apply attempt_cases in Hat
    as [[-> Hc]|[(v' & qn & -> & Hc)|[(v' & e & qn & Hcf & -> & Hc)
       |[(v' & e & [q' x'] & Hcf & -> & Hc)|(v' & e & e' & qn & Hcf & -> & Hc)]]]];
    try done; try (by destruct qn).
  rewrite poller_4. unfold bind.
  destruct (WaitFor _ (setPVCStatus_attempt o status) (q', x') s2) as [r3 s3] eqn:Hwait.
  destruct r3 as [[[q3 x3] err3]|]; [|done]. unfold ret. intros [= -> -> ->].
  apply WaitFor_timeout in Hwait as [Hu Ha].
  rewrite Hu, Ha, Hc, Hc1, updates_app, accepted_app.
  change (updates [_; _]) with 1. change (accepted [_; _]) with 0. lia.
Qed.
End Further.

(** * The code on the test cluster *)

#[local] Existing Instance Fake.consts.

(** C9: when the informer's index answers a key with found = false and an
    error, pvcFromKey returns no claim and no error: the lookup error is
    dropped, because the found test comes before the error test. *)
Theorem pvcFromKey_drops_index_error :
  GetByKey "ns/vol1" (world (Fake.brokenIndex Fake.plain))
    = (ObjNil, false, Some (errorString "index out of sync")) ∧
  pvcFromKey Fake.controller (KeyString "ns/vol1") (Fake.brokenIndex Fake.plain)
    = (Val (None, None), Fake.brokenIndex Fake.plain).
Proof.
  split; [done|]. by eapply pvcFromKey_not_found.
Qed.

(** The endpoint of ns/vol1 is resolved, the state untouched. *)
Lemma getEndpoint_missing_iff_witness :
  getEndpoint Fake.pvc (Fake.inSync Fake.plain)
    = (Val ("https://example.org/data.img", None), Fake.inSync Fake.plain).
Proof.
  destruct (getEndpoint_missing_iff (Fake.inSync Fake.plain) Fake.pvc Fake.plain)
    as (ep & err & Hrun & Hiff & Hok & Herr); [reflexivity|].
  rewrite Hrun. destruct err as [e|].
  - exfalso. destruct (proj1 Hiff) as [H|H]; [by eexists|discriminate H..].
  - specialize (Hok eq_refl). injection Hok as <-. reflexivity.
Defined.

(** ns/vol1 names no secret: empty name, no remote call, one log line. *)
Lemma getSecretName_blank_witness :
  ∃ line,
    getSecretName Fake.controller Fake.pvc (Fake.inSync Fake.plain)
      = (Val ("", None),
         mkState (objs (Fake.inSync Fake.plain)) (maps (Fake.inSync Fake.plain))
           (world (Fake.inSync Fake.plain)) [] [line]).
Proof.
  apply (getSecretName_blank Fake.controller (Fake.inSync Fake.plain) Fake.pvc Fake.plain).
  - reflexivity.
  - left. reflexivity.
Defined.

(** A secret that does not exist yet is returned by name; an unreachable
    server makes the resolution fail.  One lookup each. *)
Lemma getSecretName_lookup_witness :
  (∃ s', getSecretName Fake.controller Fake.pvc (Fake.inSync (Fake.withSecret "not-yet"))
           = (Val ("not-yet", None), s') ∧
         calls s' = [(CallSecretsGet "ns" "not-yet", Some Fake.notFound)]) ∧
  (∃ e s', getSecretName Fake.controller Fake.pvc (Fake.unreachable (Fake.withSecret "s3-keys"))
             = (Val ("", Some e), s') ∧
           calls s' = [(CallSecretsGet "ns" "s3-keys", Some (errorString "connection refused"))]).
Proof.
  split.
  - destruct (getSecretName_lookup Fake.controller
                (Fake.inSync (Fake.withSecret "not-yet")) Fake.pvc
                (Fake.withSecret "not-yet") "not-yet" None (Some Fake.notFound)
                (world (Fake.inSync (Fake.withSecret "not-yet"))))
      as (res & s' & Hrun & Hcalls & _ & _ & _ & Hnf & _ & _);
      [reflexivity | reflexivity | discriminate | reflexivity |].
    exists s'. rewrite Hrun, (Hnf eq_refl). split; [reflexivity|exact Hcalls].
  - destruct (getSecretName_lookup Fake.controller
                (Fake.unreachable (Fake.withSecret "s3-keys")) Fake.pvc
                (Fake.withSecret "s3-keys") "s3-keys" None
                (Some (errorString "connection refused"))
                (world (Fake.unreachable (Fake.withSecret "s3-keys"))))
      as (res & s' & Hrun & Hcalls & _ & _ & _ & _ & _ & Herr);
      [reflexivity | reflexivity | discriminate | reflexivity |].
    eexists _, s'. rewrite Hrun, (Herr _ eq_refl eq_refl). split; [reflexivity|exact Hcalls].
Defined.

(** Three environment entries with a secret, the endpoint alone without. *)
Lemma makeImporterPodSpec_env_witness :
  (∃ pod c0,
     makeImporterPodSpec Fake.controller "https://example.org/data.img" "s3-keys" Fake.pvc
       (Fake.inSync Fake.plain) = (Val pod, Fake.inSync Fake.plain) ∧
     PodSpec.Containers (Pod.Spec pod) = [c0] ∧ length (Container.Env c0) = 3) ∧
  (∃ pod c0,
     makeImporterPodSpec Fake.controller "https://example.org/data.img" "" Fake.pvc
       (Fake.inSync Fake.plain) = (Val pod, Fake.inSync Fake.plain) ∧
     PodSpec.Containers (Pod.Spec pod) = [c0] ∧
     Container.Env c0 = [ EnvVar.Build "IMPORTER_ENDPOINT" "https://example.org/data.img" None ]).
Proof.
  split.
  - destruct (makeImporterPodSpec_env Fake.controller "https://example.org/data.img" "s3-keys"
                (Fake.inSync Fake.plain) 1%positive
                (ObjectMeta.withAnnotations Fake.plain (Some 1%positive)))
      as (pod & c0 & Hrun & Hcs & Henv & _ & _ & Hlen); [reflexivity|].
    exists pod, c0. split_and!; [exact Hrun | exact Hcs |]. rewrite Henv. exact Hlen.
  - destruct (makeImporterPodSpec_env Fake.controller "https://example.org/data.img" ""
                (Fake.inSync Fake.plain) 1%positive
                (ObjectMeta.withAnnotations Fake.plain (Some 1%positive)))
      as (pod & c0 & Hrun & Hcs & Henv & Hone & _ & _); [reflexivity|].
    exists pod, c0. split_and!; [exact Hrun | exact Hcs |]. rewrite Henv. exact (Hone eq_refl).
Defined.

(** The pod for ns/vol1 carries the creation marker. *)
Lemma makeImporterPodSpec_createdBy_witness :
  ∃ pod,
    makeImporterPodSpec Fake.controller "https://example.org/data.img" "" Fake.pvc
      (Fake.inSync Fake.plain) = (Val pod, Fake.inSync Fake.plain) ∧
    annotation (Pod.ObjectMeta pod) "kubevirt.io/storage.createdByController" = Some "yes".
Proof.
  destruct (makeImporterPodSpec_createdBy Fake.controller "https://example.org/data.img" ""
              (Fake.inSync Fake.plain) 1%positive
              (ObjectMeta.withAnnotations Fake.plain (Some 1%positive)))
    as (pod & Hrun & Hann & _); [reflexivity|].
  exists pod. split; [exact Hrun | exact Hann].
Defined.

(** A stale claim: conflict, re-fetch, then the write goes through. *)
Lemma setPVCStatus_conflict_retry_witness :
  ∃ newPVC s',
    setPVCStatus Fake.controller Fake.pvc "InProgress" 4 (Fake.stale Fake.plain)
      = (Val (newPVC, None), s') ∧
    content s' newPVC = Some (Fake.bump (setAnnotation (Fake.bump Fake.plain)
                                          "kubevirt.io/storage.import.status" "InProgress")) ∧
    updates (calls s') = 2 ∧ length (calls s') = 3.
Proof.
  destruct (setPVCStatus_conflict_retry Fake.controller (Fake.stale Fake.plain) Fake.pvc
              Fake.plain "InProgress" 4
              None Fake.conflict (world (Fake.stale Fake.plain))
              (Fake.bump Fake.plain) (world (Fake.stale Fake.plain))
              (Fake.bump (setAnnotation (Fake.bump Fake.plain) annStatus "InProgress"))
              (ClaimsUpdate "ns" (setAnnotation (Fake.bump Fake.plain) annStatus "InProgress")
                 (world (Fake.stale Fake.plain))).2)
    as (newPVC & s' & Hrun & Hnew & Hw & Hcalls);
    [reflexivity | discriminate | reflexivity | reflexivity | reflexivity | reflexivity |].
  exists newPVC, s'. split_and!; [exact Hrun | exact Hnew | |];
    rewrite Hcalls; reflexivity.
Defined.

(** A claim already marked is returned as it is; marking a claim and
    marking the result again takes one write. *)
Lemma setPVCStatus_idempotent_witness :
  (setPVCStatus Fake.controller Fake.pvc "InProgress" 4 (Fake.inSync (Fake.marked "InProgress"))
     = (Val (Fake.pvc, None), Fake.inSync (Fake.marked "InProgress"))) ∧
  (∃ newPVC s1,
     setPVCStatus Fake.controller Fake.pvc "InProgress" 4 (Fake.inSync Fake.plain)
       = (Val (newPVC, None), s1) ∧
     setPVCStatus Fake.controller newPVC "InProgress" 4 s1 = (Val (newPVC, None), s1) ∧
     updates (calls s1) = 1 ∧ length (calls s1) = 1).
Proof.
  split.
  - apply (proj1 (setPVCStatus_idempotent Fake.controller "InProgress" 4 4)
             _ _ (Fake.marked "InProgress")); reflexivity.
  - destruct (proj2 (setPVCStatus_idempotent Fake.controller "InProgress" 4 4)
                (Fake.inSync Fake.plain) Fake.pvc Fake.plain
                (Fake.bump (setAnnotation Fake.plain annStatus "InProgress"))
                (ClaimsUpdate "ns" (setAnnotation Fake.plain annStatus "InProgress")
                   (world (Fake.inSync Fake.plain))).2)
      as (newPVC & s1 & Hrun & Hnew & Hagain & Hcalls);
      [reflexivity | discriminate | reflexivity | reflexivity |].
    exists newPVC, s1. split_and!; [exact Hrun | exact Hagain | |];
      rewrite Hcalls; reflexivity.
Defined.

(** Against a rival that never stops writing, the call gives up with the
    timeout error after six writes, though nine signals were on offer. *)
Lemma setPVCStatus_bounded_witness :
  ∃ newPVC s',
    setPVCStatus Fake.controller Fake.pvc "InProgress" 9 (Fake.contended Fake.plain)
      = (Val (newPVC, Some ErrWaitTimeout), s') ∧
    updates (calls s') = 6.
Proof.
  destruct (proj2 (setPVCStatus_bounded Fake.controller "InProgress" 9)
              (Fake.contended Fake.plain) Fake.pvc Fake.plain)
    as (newPVC & s' & Hrun & Hcalls); [reflexivity | discriminate | reflexivity |].
  exists newPVC, s'. split; [exact Hrun | exact Hcalls].
Defined.

(** An unreachable server: the call fails at its first write, with the
    error for updating around the cause. *)
Lemma setPVCStatus_update_error_witness :
  ∃ newPVC s',
    setPVCStatus Fake.controller Fake.pvc "InProgress" 4 (Fake.unreachable Fake.plain)
      = (Val (newPVC, Some (statusError "updating" "ns" "vol1"
                              (errorString "connection refused"))), s') ∧
    length (calls s') = 1.
Proof.
  destruct (setPVCStatus_update_error Fake.controller (Fake.unreachable Fake.plain) Fake.pvc
              Fake.plain "InProgress" 4 None (errorString "connection refused")
              (world (Fake.unreachable Fake.plain)))
    as (newPVC & s' & Hrun & _ & Hcalls);
    [reflexivity | discriminate | reflexivity | reflexivity |].
  exists newPVC, s'. split; [exact Hrun|]. rewrite Hcalls. reflexivity.
Defined.

(** A contended claim that cannot be read back: the call fails at the
    re-fetch, with the error for getting around the read's cause. *)
Lemma setPVCStatus_get_error_witness :
  ∃ newPVC s',
    setPVCStatus (C:=Flaky.cluster) Fake.controller Fake.pvc "InProgress" 4
      (Flaky.memory Fake.plain)
      = (Val (newPVC, Some (statusError "getting" "ns" "vol1" Flaky.resetError)), s') ∧
    length (calls s') = 2.
Proof.
  destruct (setPVCStatus_get_error (C:=Flaky.cluster) Fake.controller
              (Flaky.memory Fake.plain) Fake.pvc Fake.plain "InProgress" 4
              None Fake.conflict () None Flaky.resetError ())
    as (newPVC & s' & Hrun & _ & Hcalls);
    [reflexivity | discriminate | reflexivity | reflexivity | reflexivity |].
  exists newPVC, s'. split; [exact Hrun|]. rewrite Hcalls. reflexivity.
Defined.

(** The first write for the stale ns/vol1 carries its resource version and
    the status. *)
Lemma setPVCStatus_first_write_witness :
  ∃ sent err rest,
    calls (setPVCStatus Fake.controller Fake.pvc "InProgress" 4 (Fake.stale Fake.plain)).2
      = (CallClaimsUpdate "ns" sent, err) :: rest ∧
    ObjectMeta.ResourceVersion sent = "7" ∧
    annotation sent "kubevirt.io/storage.import.status" = Some "InProgress".
Proof.
  destruct (setPVCStatus_first_write Fake.controller (Fake.stale Fake.plain) Fake.pvc
              Fake.plain "InProgress" 4)
    as (sent & err & rest & Hcalls & _ & _ & Hrv & Hst & _); [reflexivity | discriminate |].
  exists sent, err, rest. split_and!; [exact Hcalls | exact Hrv | exact Hst].
Defined.

(** The calls of a run on the stale ns/vol1 are all on the claims of ns. *)
Lemma setPVCStatus_only_claim_calls_witness :
  ∃ tr,
    calls (setPVCStatus Fake.controller Fake.pvc "InProgress" 4 (Fake.stale Fake.plain)).2
      = tr ∧
    Forall (λ ev, isClaimCall "ns" "vol1" ev = true) tr.
Proof.
  destruct (setPVCStatus_only_claim_calls Fake.controller (Fake.stale Fake.plain) 1%positive
              (ObjectMeta.withAnnotations Fake.plain (Some 1%positive)) "InProgress" 4)
    as (tr & Hcalls & Hall); [reflexivity|].
  exists tr. split; [exact Hcalls | exact Hall].
Defined.

(** The error of a run against an unreachable server is the error for
    updating around the error of its last call. *)
Lemma setPVCStatus_error_shape_witness :
  statusError "updating" "ns" "vol1" (errorString "connection refused") = ErrWaitTimeout ∨
  ∃ cause,
    (statusError "updating" "ns" "vol1" (errorString "connection refused")
       = statusError "updating" "ns" "vol1" cause ∧
     ∃ sent,
       last (calls (setPVCStatus Fake.controller Fake.pvc "InProgress" 4
                      (Fake.unreachable Fake.plain)).2)
         = Some (CallClaimsUpdate "ns" sent, Some cause)) ∨
    (statusError "updating" "ns" "vol1" (errorString "connection refused")
       = statusError "getting" "ns" "vol1" cause ∧
     last (calls (setPVCStatus Fake.controller Fake.pvc "InProgress" 4
                    (Fake.unreachable Fake.plain)).2)
       = Some (CallClaimsGet "ns" "vol1", Some cause)).
Proof.
  apply (setPVCStatus_error_shape Fake.controller (Fake.unreachable Fake.plain) 1%positive
           (ObjectMeta.withAnnotations Fake.plain (Some 1%positive)) "InProgress" 4 None);
    reflexivity.
Defined.

(** Against a rival that never stops writing, the timeout comes after six
    refused writes. *)
Lemma setPVCStatus_timeout_budget_witness :
  updates (calls (setPVCStatus Fake.controller Fake.pvc "InProgress" 9
                    (Fake.contended Fake.plain)).2) = 6 ∧
  accepted (calls (setPVCStatus Fake.controller Fake.pvc "InProgress" 9
                     (Fake.contended Fake.plain)).2) = 0.
Proof.
  apply (setPVCStatus_timeout_budget Fake.controller (Fake.contended Fake.plain) Fake.pvc
           "InProgress" 9 None).
  reflexivity.
Defined.

(** The pod for ns/vol1 mounts the claim vol1. *)
Lemma makeImporterPodSpec_volume_witness :
  ∃ pod vol,
    makeImporterPodSpec Fake.controller "https://example.org/data.img" "" Fake.pvc
      (Fake.inSync Fake.plain) = (Val pod, Fake.inSync Fake.plain) ∧
    PodSpec.Volumes (Pod.Spec pod) = [vol] ∧
    Volume.PersistentVolumeClaim vol
      = Some (PersistentVolumeClaimVolumeSource.Build "vol1" false).
Proof.
  destruct (makeImporterPodSpec_volume Fake.controller "https://example.org/data.img" ""
              (Fake.inSync Fake.plain) 1%positive
              (ObjectMeta.withAnnotations Fake.plain (Some 1%positive)))
    as (pod & c0 & vol & mount & Hrun & Hvols & Hvol & _); [reflexivity|].
  exists pod, vol. split_and!; [exact Hrun | exact Hvols | exact Hvol].
Defined.

(** Two pods built for ns/vol1 have the same name, whatever the endpoint
    and the secret. *)
Lemma makeImporterPodSpec_name_injective_witness :
  ∃ pod1 pod2,
    makeImporterPodSpec Fake.controller "https://example.org/data.img" "" Fake.pvc
      (Fake.inSync Fake.plain) = (Val pod1, Fake.inSync Fake.plain) ∧
    makeImporterPodSpec Fake.controller "https://example.org/other.img" "s3-keys" Fake.pvc
      (Fake.stale Fake.plain) = (Val pod2, Fake.stale Fake.plain) ∧
    ObjectMeta.Name (Pod.ObjectMeta pod1) = ObjectMeta.Name (Pod.ObjectMeta pod2).
Proof.
  destruct (makeImporterPodSpec_name_injective Fake.controller Fake.controller
              "https://example.org/data.img" "https://example.org/other.img" "" "s3-keys"
              (Fake.inSync Fake.plain) (Fake.stale Fake.plain) 1%positive 1%positive
              (ObjectMeta.withAnnotations Fake.plain (Some 1%positive))
              (ObjectMeta.withAnnotations Fake.plain (Some 1%positive)))
    as (pod1 & pod2 & Hrun1 & Hrun2 & Hiff); [reflexivity | reflexivity |].
  exists pod1, pod2. split_and!; [exact Hrun1 | exact Hrun2 | exact (proj2 Hiff eq_refl)].
Defined.

(** The pod for ns/vol1 is submitted once and comes back as created; with
    the server unreachable the submission fails with an error. *)
Lemma createImporterPod_submits_witness :
  (∃ created s',
     createImporterPod Fake.controller "https://example.org/data.img" "" Fake.pvc
       (Fake.inSync Fake.plain) = (Val (Some created, None), s') ∧
     length (calls s') = 1) ∧
  (∃ e s',
     createImporterPod Fake.controller "https://example.org/data.img" "" Fake.pvc
       (Fake.unreachable Fake.plain) = (Val (None, Some e), s') ∧
     length (calls s') = 1).
Proof.
  split.
  - destruct (makeImporterPodSpec_run Fake.controller "https://example.org/data.img" ""
                (Fake.inSync Fake.plain) 1%positive
                (ObjectMeta.withAnnotations Fake.plain (Some 1%positive)) eq_refl)
      as (pod0 & Hpod0 & _).
    destruct (createImporterPod_submits Fake.controller "https://example.org/data.img" ""
                (Fake.inSync Fake.plain) 1%positive
                (ObjectMeta.withAnnotations Fake.plain (Some 1%positive))
                (Some pod0) None (world (Fake.inSync Fake.plain)))
      as (pod & res & s' & Hrun & Hcreate & _ & _ & _ & Hcalls & _ & Hok & _);
      [reflexivity | |].
    + intros pod Hpod. rewrite Hpod0 in Hpod. injection Hpod as <-. reflexivity.
    + exists pod0, s'. destruct (Hok pod0 eq_refl eq_refl) as [-> _].
      split; [exact Hcreate|]. rewrite Hcalls. reflexivity.
  - destruct (createImporterPod_submits Fake.controller "https://example.org/data.img" ""
                (Fake.unreachable Fake.plain) 1%positive
                (ObjectMeta.withAnnotations Fake.plain (Some 1%positive))
                None (Some (errorString "connection refused"))
                (world (Fake.unreachable Fake.plain)))
      as (pod & res & s' & Hrun & Hcreate & _ & _ & _ & Hcalls & Herr & _);
      [reflexivity | |].
    + intros pod _. reflexivity.
    + eexists _, s'. destruct (Herr _ eq_refl) as [-> _].
      split; [exact Hcreate|]. rewrite Hcalls. reflexivity.
Defined.

(** C2 as stated fails.  The caller holds ns/vol1 in sync with the server
    and marks it twice in succession through its own pointer: the first call
    succeeds with one write and leaves the caller's claim without the
    status, so the second call writes again, is refused for the stale
    resource version, re-fetches and writes once more: three conditional
    writes, two of them accepted.  And one call on a stale claim already
    takes two conditional writes. *)
Lemma setPVCStatus_twice_counterexample :
  errOf (setPVCStatus Fake.controller Fake.pvc "InProgress" 4
           (Fake.inSync Fake.plain)).1 = Val None ∧
  hasStatus (setPVCStatus Fake.controller Fake.pvc "InProgress" 4
               (Fake.inSync Fake.plain)).2 Fake.pvc "InProgress" = false ∧
  errOf (setPVCStatus Fake.controller Fake.pvc "InProgress" 4
           (setPVCStatus Fake.controller Fake.pvc "InProgress" 4
              (Fake.inSync Fake.plain)).2).1 = Val None ∧
  updates (calls (setPVCStatus Fake.controller Fake.pvc "InProgress" 4
                    (setPVCStatus Fake.controller Fake.pvc "InProgress" 4
                       (Fake.inSync Fake.plain)).2).2) = 3 ∧
  accepted (calls (setPVCStatus Fake.controller Fake.pvc "InProgress" 4
                     (setPVCStatus Fake.controller Fake.pvc "InProgress" 4
                        (Fake.inSync Fake.plain)).2).2) = 2 ∧
  errOf (setPVCStatus Fake.controller Fake.pvc "InProgress" 4
           (Fake.stale Fake.plain)).1 = Val None ∧
  updates (calls (setPVCStatus Fake.controller Fake.pvc "InProgress" 4
                    (Fake.stale Fake.plain)).2) = 2.
Proof. split_and!; vm_compute; reflexivity. Qed.
